(** * Rounded philosopher portraits: a shallow embedding of [process_images.py]

    The script opens five fixed JPEG files, centre-crops each to a square,
    resizes it to 50x50, cuts it out with an elliptical alpha mask and saves
    it as a PNG.  The arithmetic and the control flow live in the script and
    are embedded here line by line.  The imaging primitives it calls belong
    to Pillow; they are modelled on dense pixel grids, and the four parts of
    Pillow that are floating point or codec work (decoding, Lanczos
    resampling, the ellipse rasteriser, PNG encoding) are parameters of the
    development. *)

From Stdlib Require Import ZArith QArith Qround Lia Ascii String.
From stdpp Require Import gmap strings list fin_maps.

Close Scope Q_scope.
Open Scope Z_scope.

(** ** Outcomes: a Python call either returns or raises *)

Inductive exn :=
  | FileNotFoundError (path : string)
  | IsADirectoryError (path : string)
  | UnidentifiedImageError (path : string)
  | OSError
  | ValueError
  | Unmodelled.

Inductive outcome (A : Type) :=
  | Returned (a : A)
  | Raised (e : exn).
Arguments Returned {A} a.
Arguments Raised {A} e.

Definition obind {A B} (m : outcome A) (k : A -> outcome B) : outcome B :=
  match m with
  | Returned a => k a
  | Raised e => Raised e
  end.

#[export] Instance outcome_ret : MRet outcome := fun A a => Returned a.
#[export] Instance outcome_bind : MBind outcome := fun A B k m => obind m k.

(** ** Images as Pillow holds them: a mode, a size and a row-major grid *)

Module Image.

Inductive Mode := L | RGB | RGBA.

#[export] Instance Mode_eq_dec : EqDecision Mode.
Proof. solve_decision. Defined.

(** One entry per band: [[v]] in mode L, [[r; g; b]] in RGB,
    [[r; g; b; a]] in RGBA. *)
Abbreviation pixel := (list Z).

Record t := mk_image {
  mode : Mode;
  size : Z * Z;
  data : list pixel
}.

Definition width (im : t) : Z := fst (size im).
Definition height (im : t) : Z := snd (size im).

(** The grid of a [w] by [h] image whose pixel at column [x], row [y] is
    [f x y], rows first. *)
Definition raster (w h : Z) (f : Z -> Z -> pixel) : list pixel :=
  map (fun i : nat => f (Z.of_nat i mod w) (Z.of_nat i / w))
      (seq 0 (Z.to_nat w * Z.to_nat h)).

(** [im.getpixel((x, y))]; [None] stands for Pillow's IndexError. *)
Definition getpixel (im : t) (x y : Z) : option pixel :=
  if (0 <=? x) && (x <? width im) && (0 <=? y) && (y <? height im)
  then data im !! Z.to_nat (y * width im + x)
  else None.

Definition bands (m : Mode) : nat :=
  match m with L => 1%nat | RGB => 3%nat | RGBA => 4%nat end.

Definition black (m : Mode) : pixel := replicate (bands m) 0.

(** The grid has one pixel per position. *)
Definition well_formed (im : t) : Prop :=
  0 <= width im /\ 0 <= height im /\
  length (data im) = (Z.to_nat (width im) * Z.to_nat (height im))%nat.

(** [Image.new(mode, size, color)] *)
Definition new (m : Mode) (sz : Z * Z) (color : pixel) : outcome t :=
  if (fst sz <? 0) || (snd sz <? 0) then Raised ValueError
  else Returned (mk_image m sz (raster (fst sz) (snd sz) (fun _ _ => color))).

(** [im.convert("RGBA")]: a grey value is copied to the three colour bands,
    and an image without alpha gets the opaque value 255.  Other targets are
    outside the model unless the image already has that mode. *)
Definition to_rgba (from : Mode) (p : pixel) : pixel :=
  match from, p with
  | L, [v] => [v; v; v; 255]
  | RGB, [r; g; b] => [r; g; b; 255]
  | _, _ => p
  end.

Definition convert (im : t) (m : Mode) : outcome t :=
  if decide (mode im = m) then Returned im
  else match m with
       | RGBA => Returned (mk_image RGBA (size im) (map (to_rgba (mode im)) (data im)))
       | _ => Raised Unmodelled
       end.

(** [im.crop((left, top, right, bottom))]: the half-open rectangle; what lies
    outside the source is filled with zeros. *)
Definition crop (im : t) (box : Z * Z * Z * Z) : outcome t :=
  let '(x0, y0, x1, y1) := box in
  if x1 <? x0 then Raised ValueError
  else if y1 <? y0 then Raised ValueError
  else Returned (mk_image (mode im) (x1 - x0, y1 - y0)
         (raster (x1 - x0) (y1 - y0)
            (fun x y => default (black (mode im)) (getpixel im (x + x0) (y + y0))))).

(** [output.paste(im, (ox, oy))] without a mask: every band of [im] is
    copied over the part of the canvas it covers.  Pillow converts a pasted
    image of another mode first; that case is outside the model. *)
Definition paste (canvas im : t) (at_ : Z * Z) : outcome t :=
  let '(ox, oy) := at_ in
  if decide (mode im = mode canvas) then
    Returned (mk_image (mode canvas) (size canvas)
      (raster (width canvas) (height canvas)
         (fun x y => match getpixel im (x - ox) (y - oy) with
                     | Some p => p
                     | None => default (black (mode canvas)) (getpixel canvas x y)
                     end)))
  else Raised Unmodelled.

(** [output.putalpha(mask)] with an image as alpha layer: band 3 of every
    pixel is replaced by the mask's value there.  The layer must be
    single-band and of the same size. *)
Definition putalpha (canvas mask : t) : outcome t :=
  match mode canvas with
  | RGBA =>
      match mode mask with
      | L =>
          if decide (size mask = size canvas) then
            Returned (mk_image RGBA (size canvas)
              (raster (width canvas) (height canvas)
                 (fun x y =>
                    <[3%nat := default 0 (default [] (getpixel mask x y) !! 0%nat)]>
                      (default (black RGBA) (getpixel canvas x y)))))
          else Raised ValueError
      | _ => Raised ValueError
      end
  | _ => Raised Unmodelled
  end.

(** A resampling filter: source image, target size, target position. *)
Definition filter := t -> Z * Z -> Z -> Z -> pixel.

(** [im.resize(size, filter)]: an image that already has the size is
    copied; otherwise both sides must be at least 1 and every pixel of the
    result is whatever the resampling filter computes there (for RGBA this
    includes Pillow's premultiplication round trip). *)
Definition resize (im : t) (sz : Z * Z) (resample : filter) : outcome t :=
  if decide (size im = sz) then Returned im
  else if (fst sz <? 1) || (snd sz <? 1) then Raised ValueError
  else Returned (mk_image (mode im) sz
         (raster (fst sz) (snd sz) (fun x y => resample im sz x y))).

Definition rgb (p : pixel) : list Z := take 3 p.
Definition alpha (p : pixel) : option Z := p !! 3%nat.

End Image.

(** [ImageDraw.Draw(mask).ellipse(box, fill=v)]: the pixels the rasteriser
    selects for the ellipse in [box] take the fill value, the others keep
    theirs.  Which pixels those are is Pillow's business: [covers]. *)
Module ImageDraw.

Definition rasteriser := Z * Z * Z * Z -> Z -> Z -> bool.

Definition ellipse (covers : rasteriser) (im : Image.t) (box : Z * Z * Z * Z)
    (fill : Z) : Image.t :=
  Image.mk_image (Image.mode im) (Image.size im)
    (Image.raster (Image.width im) (Image.height im)
       (fun x y => if covers box x y then [fill]
                   else default (Image.black (Image.mode im)) (Image.getpixel im x y))).

End ImageDraw.

(** ** The centre crop box, lines 17-24 of [create_rounded_portrait] *)

Definition crop_box (width height : Z) : Z * Z * Z * Z :=
  let min_dim := Z.min width height in
  let left := (width - min_dim) / 2 in
  let top := (height - min_dim) / 2 in
  let right := left + min_dim in
  let bottom := top + min_dim in
  (left, top, right, bottom).

(** ** The world the script runs in: files by name, and the console

    The script runs in one working directory and addresses its files by
    plain names.  [files] describes that directory: what is found under each
    name.  A path with a directory part, a link, or a second spelling of a
    name is not something this map describes; statements that depend on two
    paths naming different files ask for [plain_name]. *)

Inductive node :=
  | File (content : list Byte.byte)
  | Dir.

(** A file name in the working directory: not empty, not "." or "..", at
    most 255 bytes long, and free of slashes and NUL. *)
Definition plain_name (path : string) : bool :=
  negb (String.eqb path EmptyString)
  && negb (String.eqb path ".")
  && negb (String.eqb path "..")
  && Nat.leb (String.length path) 255
  && forallb (fun c => negb (Ascii.eqb c "/") && negb (Ascii.eqb c "000"))
       (list_ascii_of_string path).

Record world := mk_world {
  files : gmap string node;
  stdout : list string
}.

(** A statement turns a world into a new world and returns or raises. *)
Definition M (A : Type) : Type := world -> outcome A * world.

Definition ret {A} (a : A) : M A := fun w => (Returned a, w).

Definition bind {A B} (m : M A) (k : A -> M B) : M B :=
  fun w => match m w with
           | (Returned a, w') => k a w'
           | (Raised e, w') => (Raised e, w')
           end.

Definition lift {A} (o : outcome A) : M A := fun w => (o, w).

#[export] Instance M_ret : MRet M := fun A a => ret a.
#[export] Instance M_bind : MBind M := fun A B k m => bind m k.

Definition print (line : string) : M unit :=
  fun w => (Returned tt, mk_world (files w) (stdout w ++ [line])).

Definition os_path_exists (path : string) : M bool :=
  fun w => (Returned (bool_decide (is_Some (files w !! path))), w).

(** [for x in xs: body(x)] *)
Fixpoint for_each {A} (xs : list A) (body : A -> M unit) : M unit :=
  match xs with
  | [] => ret tt
  | x :: rest => body x ;; for_each rest body
  end.

(** What Pillow finds in a file.  [Image.open] only recognises the format
    and reads the header; the pixels are decoded when they are first needed,
    which in this script is inside [convert]. *)
Inductive source :=
  | Unidentified
  | Truncated
  | Decodable (im : Image.t).

(** [im.load()], the first thing [convert] does: a file whose pixel data
    breaks off raises OSError here. *)
Definition load (opened : source) : outcome Image.t :=
  match opened with
  | Decodable im => Returned im
  | _ => Raised OSError
  end.

Section Script.

(** What Pillow contributes beyond grid bookkeeping. *)
Variable decode : list Byte.byte -> source.
Variable LANCZOS : Image.filter.
Variable covers : ImageDraw.rasteriser.
Variable encode_png : Image.t -> list Byte.byte.

(** [Image.open(path)]: the file must be there and its format must be
    recognised; no pixel is decoded yet. *)
Definition Image_open (path : string) : M source :=
  fun w => match files w !! path with
           | None => (Raised (FileNotFoundError path), w)
           | Some Dir => (Raised (IsADirectoryError path), w)
           | Some (File content) =>
               match decode content with
               | Unidentified => (Raised (UnidentifiedImageError path), w)
               | opened => (Returned opened, w)
               end
           end.

(** [im.save(path, "PNG")]: creates or overwrites the file under that name;
    a directory in its place makes it fail.  Whether the operating system
    lets the file be written (permissions, room on the disk, a directory
    part of the path that is missing) is not something [world] records, so
    no theorem concludes from the world alone that a save succeeds. *)
Definition Image_save (im : Image.t) (path : string) : M unit :=
  fun w => match files w !! path with
           | Some Dir => (Raised (IsADirectoryError path), w)
           | _ => (Returned tt,
                   mk_world (<[path := File (encode_png im)]> (files w)) (stdout w))
           end.

(** Lines 17-40: everything between opening the source and saving the
    result happens on images in memory. *)
Definition render (img : Image.t) (size : Z * Z) : outcome Image.t :=
  let '(width, height) := Image.size img in
  img ← Image.crop img (crop_box width height);
  img ← Image.resize img size LANCZOS;
  mask ← Image.new Image.L size [0];
  let mask := ImageDraw.ellipse covers mask (0, 0, fst size, snd size) 255 in
  output ← Image.new Image.RGBA size [0; 0; 0; 0];
  output ← Image.paste output img (0, 0);
  output ← Image.putalpha output mask;
  mret output.

Definition create_rounded_portrait (input_path output_path : string)
    (size : Z * Z) : M unit :=
  img ← Image_open input_path;
  img ← lift (img ← load img; Image.convert img Image.RGBA);
  output ← lift (render img size);
  Image_save output output_path;;
  print ("Created " +:+ output_path).

(** The default of the [size] parameter. *)
Definition size_default : Z * Z := (50, 50).

Definition philosophers : list (string * string) :=
  [ ("socrates.jpg", "socrates-rounded.png");
    ("plato.jpg", "plato-rounded.png");
    ("aristotle.jpg", "aristotle-rounded.png");
    ("nietzsche.jpg", "nietzsche-rounded.png");
    ("descartes.jpg", "descartes-rounded.png") ]%string.

(** The body of the loop of [main], lines 57-60. *)
Definition process (pair : string * string) : M unit :=
  let '(input_file, output_file) := pair in
  found ← os_path_exists input_file;
  if found : bool return M unit
  then create_rounded_portrait input_file output_file size_default
  else print ("Warning: " +:+ input_file +:+ " not found").

Definition newline : string := String "010"%char EmptyString.

Definition main : M unit :=
  for_each philosophers process;;
  print (newline +:+ "All portraits processed!");;
  print "Move the -rounded.png files to the parent directory to use them.".

(** Two summaries of the code above, each proved equal to it below:
    the bytes [create_rounded_portrait] has to write, as a function of what
    it finds at the input path, and the line [process] prints for a pair. *)
Definition portrait_of (path : string) (entry : option node) (size : Z * Z)
    : outcome (list Byte.byte) :=
  match entry with
  | None => Raised (FileNotFoundError path)
  | Some Dir => Raised (IsADirectoryError path)
  | Some (File content) =>
      match decode content with
      | Unidentified => Raised (UnidentifiedImageError path)
      | opened =>
          img ← load opened;
          img ← Image.convert img Image.RGBA;
          output ← render img size;
          mret (encode_png output)
      end
  end.

Definition report (m : gmap string node) (pair : string * string) : string :=
  match m !! pair.1 with
  | Some _ => "Created " +:+ pair.2
  | None => "Warning: " +:+ pair.1 +:+ " not found"
  end.

End Script.

(** ** The crop box as the specification words it *)

(** [floor((width - minDim) / 2)] with the division taken in the rationals. *)
Definition spec_crop_box (width height : Z) : Z * Z * Z * Z :=
  let minDim := Z.min width height in
  let l := Qfloor (inject_Z (width - minDim) / inject_Z 2)%Q in
  let t := Qfloor (inject_Z (height - minDim) / inject_Z 2)%Q in
  (l, t, l + minDim, t + minDim).

(** ** A small imaging back end on which the script can be run

    Decoder: the first two bytes are width and height, then one grey byte
    per pixel; fewer than two bytes are no image, a wrong number of pixel
    bytes is a truncated one.  Filter: nearest neighbour.  Rasteriser: a
    pixel is covered when its centre lies in the ellipse inscribed in the
    box.  Encoder: width and height, then every band of every pixel. *)
Module Demo.

Definition byte_val (b : Byte.byte) : Z := Z.of_N (Byte.to_N b).
Definition val_byte (v : Z) : Byte.byte :=
  default Byte.x00 (Byte.of_N (Z.to_N (v mod 256))).

Definition decode (content : list Byte.byte) : source :=
  match content with
  | w :: h :: rest =>
      if decide (length rest = Z.to_nat (byte_val w) * Z.to_nat (byte_val h))%nat
      then Decodable (Image.mk_image Image.L (byte_val w, byte_val h)
                        (map (fun b => [byte_val b]) rest))
      else Truncated
  | _ => Unidentified
  end.

Definition nearest : Image.filter :=
  fun im sz x y =>
    default [] (Image.getpixel im (x * Image.width im / fst sz)
                                  (y * Image.height im / snd sz)).

Definition covers : ImageDraw.rasteriser :=
  fun '(x0, y0, x1, y1) x y =>
    let a := x1 - x0 in
    let b := y1 - y0 in
    let dx := 2 * x + 1 - (x0 + x1) in
    let dy := 2 * y + 1 - (y0 + y1) in
    dx * dx * (b * b) + dy * dy * (a * a) <=? a * a * (b * b).

Definition encode (im : Image.t) : list Byte.byte :=
  val_byte (Image.width im) :: val_byte (Image.height im) ::
  concat (map (map val_byte) (Image.data im)).

(** A 4 by 2 grey picture, as a file. *)
Definition picture : list Byte.byte :=
  [Byte.x04; Byte.x02;
   Byte.x0a; Byte.x14; Byte.x1e; Byte.x28;
   Byte.x32; Byte.x3c; Byte.x46; Byte.x50].

Definition decoded : Image.t :=
  Image.mk_image Image.L (4, 2)
    [[10]; [20]; [30]; [40]; [50]; [60]; [70]; [80]].

Definition image : Image.t :=
  Image.mk_image Image.RGBA (4, 2)
    (map (fun v => [v; v; v; 255]) [10; 20; 30; 40; 50; 60; 70; 80]).

Definition square : Image.t :=
  Image.mk_image Image.RGBA (2, 2)
    (map (fun v => [v; v; v; 255]) [10; 20; 30; 40]).

Definition only_socrates : world :=
  mk_world {[ "socrates.jpg"%string := File picture ]} [].

Definition empty_world : world := mk_world ∅ [].

(** The same picture with other values in the columns the crop discards. *)
Definition image_other_margins : Image.t :=
  Image.mk_image Image.RGBA (4, 2)
    (map (fun v => [v; v; v; 255]) [11; 20; 30; 41; 51; 60; 70; 81]).

(** No socrates.jpg, and a directory where plato.jpg should be. *)
Definition plato_is_dir : world :=
  mk_world {[ "plato.jpg"%string := Dir ]} [].

End Demo.

(** ** Grids *)

Section Grid.
Import Image.

Lemma raster_length w h f :
  length (raster w h f) = (Z.to_nat w * Z.to_nat h)%nat.
Proof. unfold raster. by rewrite length_map, length_seq. Qed.

Lemma raster_index w h x y :
  0 <= x < w -> 0 <= y < h ->
  (Z.to_nat (y * w + x) < Z.to_nat w * Z.to_nat h)%nat.
Proof.
  intros Hx Hy.
  rewrite <- Z2Nat.inj_mul by lia.
  apply Z2Nat.inj_lt; nia.
Qed.

Lemma raster_lookup w h f x y :
  0 <= x < w -> 0 <= y < h ->
  raster w h f !! Z.to_nat (y * w + x) = Some (f x y).
Proof.
  intros Hx Hy. unfold raster.
  rewrite list_lookup_fmap, lookup_seq_lt by (by apply raster_index).
  simpl. rewrite Z2Nat.id by nia.
  f_equal. f_equal.
  - rewrite Z.add_comm, Z.mod_add by lia. apply Z.mod_small; lia.
  - rewrite Z.add_comm, Z.div_add by lia. rewrite Z.div_small; lia.
Qed.

Lemma in_range x y w h :
  0 <= x < w -> 0 <= y < h ->
  (0 <=? x) && (x <? w) && (0 <=? y) && (y <? h) = true.
Proof.
  intros. repeat (apply andb_true_intro; split); lia.
Qed.

(** Reading back a grid that was filled position by position. *)
Lemma getpixel_raster m w h f x y :
  0 <= x < w -> 0 <= y < h ->
  getpixel (mk_image m (w, h) (raster w h f)) x y = Some (f x y).
Proof.
  intros Hx Hy. unfold getpixel, width, height. simpl.
  rewrite in_range by done. by apply raster_lookup.
Qed.

Lemma getpixel_in_range (im : t) x y :
  well_formed im -> 0 <= x < width im -> 0 <= y < height im ->
  is_Some (getpixel im x y).
Proof.
  intros (Hw & Hh & Hlen) Hx Hy. unfold getpixel.
  rewrite in_range by done.
  apply lookup_lt_is_Some. rewrite Hlen. by apply raster_index.
Qed.

Lemma getpixel_out_of_range (im : t) x y :
  ~ (0 <= x < width im /\ 0 <= y < height im) -> getpixel im x y = None.
Proof.
  intros H. unfold getpixel.
  destruct ((0 <=? x) && (x <? width im) && (0 <=? y) && (y <? height im)) eqn:E;
    [|done].
  exfalso. apply H. repeat (apply andb_prop in E as [E ?]). lia.
Qed.

(** A well-formed image is the grid of its own pixels. *)
Lemma raster_getpixel (im : t) :
  well_formed im ->
  raster (width im) (height im)
    (fun x y => default (black (mode im)) (getpixel im x y)) = data im.
Proof.
  intros (Hw & Hh & Hlen).
  apply list_eq. intros i.
  destruct (decide (i < Z.to_nat (width im) * Z.to_nat (height im))%nat) as [Hi|Hi].
  - assert (0 < width im) as Hpos by (destruct (Z.to_nat (width im)) eqn:E; lia).
    assert (0 <= Z.of_nat i mod width im < width im) as Hx
      by (apply Z.mod_pos_bound; lia).
    assert (0 <= Z.of_nat i / width im < height im) as Hy.
    { split; [apply Z.div_pos; lia|]. apply Z.div_lt_upper_bound; nia. }
    unfold raster. rewrite list_lookup_fmap, lookup_seq_lt by done. simpl.
    unfold getpixel. rewrite in_range by done.
    replace (Z.of_nat i / width im * width im + Z.of_nat i mod width im)
      with (Z.of_nat i)
      by (rewrite (Z.div_mod (Z.of_nat i) (width im)) at 1; lia).
    rewrite Nat2Z.id.
    destruct (data im !! i) eqn:E; [done|].
    apply lookup_ge_None in E. lia.
  - rewrite !lookup_ge_None_2; [done| |]; [|rewrite raster_length]; lia.
Qed.

End Grid.

(** ** The crop box *)

Section CropBox.
Import Image.

Lemma floor_half (n : Z) : Qfloor (inject_Z n / inject_Z 2)%Q = n / 2.
Proof.
  unfold Qdiv, Qmult, Qinv, inject_Z, Qfloor. simpl.
  by rewrite Z.mul_1_r.
Qed.

Lemma crop_box_eq width height :
  crop_box width height =
    ((width - Z.min width height) / 2,
     (height - Z.min width height) / 2,
     (width - Z.min width height) / 2 + Z.min width height,
     (height - Z.min width height) / 2 + Z.min width height).
Proof. reflexivity. Qed.

Lemma crop_box_spec width height :
  crop_box width height = spec_crop_box width height.
Proof.
  unfold spec_crop_box. rewrite !floor_half. apply crop_box_eq.
Qed.

Lemma crop_box_bounds W H l t r b :
  0 <= W -> 0 <= H -> crop_box W H = (l, t, r, b) ->
  0 <= l <= r /\ r <= W /\ 0 <= t <= b /\ b <= H /\
  r - l = Z.min W H /\ b - t = Z.min W H.
Proof.
  intros HW HH. rewrite crop_box_eq. intros [= <- <- <- <-].
  pose proof (Z.div_pos (W - Z.min W H) 2).
  pose proof (Z.div_pos (H - Z.min W H) 2).
  pose proof (Z.mul_div_le (W - Z.min W H) 2).
  pose proof (Z.mul_div_le (H - Z.min W H) 2).
  lia.
Qed.

Lemma crop_returns (im : t) x0 y0 x1 y1 :
  x0 <= x1 -> y0 <= y1 ->
  crop im (x0, y0, x1, y1) =
    Returned (mk_image (mode im) (x1 - x0, y1 - y0)
      (raster (x1 - x0) (y1 - y0)
         (fun x y => default (black (mode im)) (getpixel im (x + x0) (y + y0))))).
Proof.
  intros Hx Hy. unfold crop.
  destruct (x1 <? x0) eqn:E1; [lia|].
  destruct (y1 <? y0) eqn:E2; [lia|]. done.
Qed.

(** The crop of lines 18-27 on its own: a half-open window on the source,
    copied pixel for pixel. *)
Lemma crop_window (im : t) :
  well_formed im ->
  exists l t r b cropped,
    crop_box (width im) (height im) = (l, t, r, b) /\
    r = l + Z.min (width im) (height im) /\
    b = t + Z.min (width im) (height im) /\
    crop im (l, t, r, b) = Returned cropped /\
    size cropped = (Z.min (width im) (height im), Z.min (width im) (height im)) /\
    (forall x y, 0 <= x < r - l -> 0 <= y < b - t ->
       is_Some (getpixel im (l + x) (t + y)) /\
       getpixel cropped x y = getpixel im (l + x) (t + y)) /\
    (forall x y, ~ (0 <= x < r - l /\ 0 <= y < b - t) ->
       getpixel cropped x y = None).
Proof.
  intros Hwf.
  destruct Hwf as (HW & HH & Hlen).
  destruct (crop_box (width im) (height im)) as [[[l t'] r] b] eqn:Hbox.
  destruct (crop_box_bounds _ _ _ _ _ _ HW HH Hbox) as (Hl & Hr & Ht & Hb & Hrl & Hbt).
  rewrite crop_box_eq in Hbox. injection Hbox as El Et Er Eb.
  eexists l, t', r, b, _. split; [done|].
  split; [lia|]. split; [lia|].
  split; [apply crop_returns; lia|].
  split; [simpl; congruence|].
  split.
  - intros x y Hx Hy.
    assert (is_Some (getpixel im (l + x) (t' + y))) as Hsome
      by (apply getpixel_in_range; [done|lia|lia]).
    split; [done|].
    rewrite getpixel_raster by done.
    rewrite (Z.add_comm x l), (Z.add_comm y t').
    by destruct Hsome as [p ->].
  - intros x y Hout. by apply getpixel_out_of_range.
Qed.

(** C8: on a square input the crop box is the whole image,
    (0, 0, W, H), and cropping to it returns the image unchanged. *)
Theorem crop_square_identity (im : t) :
  width im = height im ->
  crop_box (width im) (height im) = (0, 0, width im, height im) /\
  (well_formed im ->
   crop im (crop_box (width im) (height im)) = Returned im).
Proof.
  intros Hsq.
  assert (crop_box (width im) (height im) = (0, 0, width im, height im)) as Hbox.
  { rewrite crop_box_eq, <- Hsq, Z.min_id, Z.sub_diag. reflexivity. }
  split; [done|]. intros Hwf.
  rewrite Hbox. destruct Hwf as (HW & HH & Hlen).
  rewrite crop_returns by lia. f_equal.
  rewrite !Z.sub_0_r.
  pose proof (raster_getpixel im (conj HW (conj HH Hlen))) as Hgrid.
  destruct im as [m [w h] d]. unfold width, height in *. simpl in *.
  f_equal. etrans; [|exact Hgrid].
  unfold raster. apply map_ext. intros i.
  by rewrite !Z.add_0_r.
Qed.

(** C9: on a non-square input only the longer side loses pixels, and it
    loses them evenly: with width > height the right margin [width - right]
    equals the left margin [left] when [width - min_dim] is even and exceeds
    it by exactly one when it is odd, while top = 0 and bottom = height;
    the same with the roles of the axes exchanged when height > width. *)
Theorem crop_margins_symmetric (width height l t r b : Z) :
  width <> height ->
  crop_box width height = (l, t, r, b) ->
  (height < width ->
     t = 0 /\ b = height /\
     (Z.even (width - Z.min width height) = true -> l = width - r) /\
     (Z.odd (width - Z.min width height) = true -> (width - r) - l = 1)) /\
  (width < height ->
     l = 0 /\ r = width /\
     (Z.even (height - Z.min width height) = true -> t = height - b) /\
     (Z.odd (height - Z.min width height) = true -> (height - b) - t = 1)).
Proof.
  intros Hne. rewrite crop_box_eq. intros [= <- <- <- <-].
  split; intros Hlt.
  - rewrite Z.min_r by lia. rewrite Z.sub_diag. change (0 / 2) with 0.
    repeat split; try lia.
    + intros Hev. apply Zeven_bool_iff, Zeven_div2 in Hev.
      rewrite Z.div2_div in Hev. lia.
    + intros Hod. apply Zodd_bool_iff, Zodd_div2 in Hod.
      rewrite Z.div2_div in Hod. lia.
  - rewrite Z.min_l by lia. rewrite Z.sub_diag. change (0 / 2) with 0.
    repeat split; try lia.
    + intros Hev. apply Zeven_bool_iff, Zeven_div2 in Hev.
      rewrite Z.div2_div in Hev. lia.
    + intros Hod. apply Zodd_bool_iff, Zodd_div2 in Hod.
      rewrite Z.div2_div in Hod. lia.
Qed.

(** C10: for a source of at least one pixel each way the crop box is a
    square of side min(W, H) inside the image:
    0 <= left <= right <= W, 0 <= top <= bottom <= H. *)
Theorem crop_box_in_bounds (W H l t r b : Z) :
  1 <= W -> 1 <= H ->
  crop_box W H = (l, t, r, b) ->
  0 <= l /\ l <= r /\ r <= W /\
  0 <= t /\ t <= b /\ b <= H /\
  r - l = Z.min W H /\ b - t = Z.min W H.
Proof.
  intros HW HH Hbox.
  destruct (crop_box_bounds W H l t r b) as (? & ? & ? & ? & ? & ?); [lia|lia|done|].
  lia.
Qed.

End CropBox.

(** ** The imaging primitives, one grid at a time *)

Section Primitives.
Import Image.

Lemma bind_Returned {A B} (m : outcome A) (k : A -> outcome B) (b : B) :
  m ≫= k = Returned b -> exists a, m = Returned a /\ k a = Returned b.
Proof. destruct m as [a|e]; [eauto|discriminate]. Qed.

Lemma bind_ret {A B} (a : A) (k : A -> outcome B) : Returned a ≫= k = k a.
Proof. reflexivity. Qed.

Lemma bind_raise {A B} (e : exn) (k : A -> outcome B) :
  Raised e ≫= k = Raised e.
Proof. reflexivity. Qed.

Lemma getpixel_grid m (sz : Z * Z) f x y :
  0 <= x < fst sz -> 0 <= y < snd sz ->
  getpixel (mk_image m sz (raster (fst sz) (snd sz) f)) x y = Some (f x y).
Proof. destruct sz. apply getpixel_raster. Qed.

Lemma grid_well_formed m (sz : Z * Z) f :
  0 <= fst sz -> 0 <= snd sz ->
  well_formed (mk_image m sz (raster (fst sz) (snd sz) f)).
Proof.
  intros. unfold well_formed, width, height. simpl.
  by rewrite raster_length.
Qed.

Lemma new_inv m sz color im :
  new m sz color = Returned im ->
  0 <= fst sz /\ 0 <= snd sz /\
  im = mk_image m sz (raster (fst sz) (snd sz) (fun _ _ => color)).
Proof.
  unfold new. destruct (_ || _) eqn:E; [discriminate|].
  apply orb_false_elim in E as [? ?]. intros [= <-]. repeat split; lia.
Qed.

Lemma new_returns m sz color :
  0 <= fst sz -> 0 <= snd sz ->
  new m sz color = Returned (mk_image m sz (raster (fst sz) (snd sz) (fun _ _ => color))).
Proof.
  intros. unfold new.
  destruct (fst sz <? 0) eqn:E1; [lia|]. destruct (snd sz <? 0) eqn:E2; [lia|]. done.
Qed.

Lemma convert_rgba (im : t) :
  exists im', convert im RGBA = Returned im' /\
    mode im' = RGBA /\ size im' = size im.
Proof.
  unfold convert. destruct (decide (mode im = RGBA)); eauto.
Qed.

Lemma crop_inv (im : t) box c :
  crop im box = Returned c ->
  mode c = mode im /\ well_formed c /\
  size c = (box.1.2 - box.1.1.1, box.2 - box.1.1.2).
Proof.
  destruct box as [[[x0 y0] x1] y1]. unfold crop.
  destruct (x1 <? x0) eqn:E1; [discriminate|].
  destruct (y1 <? y0) eqn:E2; [discriminate|].
  intros [= <-]. split; [done|]. split; [|done].
  apply (grid_well_formed _ (x1 - x0, y1 - y0)); simpl; lia.
Qed.

Lemma resize_inv (im : t) sz f r :
  well_formed im ->
  resize im sz f = Returned r ->
  mode r = mode im /\ size r = sz /\ well_formed r.
Proof.
  intros Hwf. unfold resize.
  destruct (decide (size im = sz)) as [<-|Hne].
  - by intros [= <-].
  - destruct (_ || _) eqn:E; [discriminate|].
    apply orb_false_elim in E as [? ?]. intros [= <-].
    repeat split; try done; try (unfold width, height; simpl; lia).
    simpl. by rewrite raster_length.
Qed.

Lemma resize_returns (im : t) sz f :
  1 <= fst sz -> 1 <= snd sz -> exists r, resize im sz f = Returned r.
Proof.
  intros. unfold resize. destruct (decide (size im = sz)); [eauto|].
  destruct (fst sz <? 1) eqn:E1; [lia|]. destruct (snd sz <? 1) eqn:E2; [lia|].
  simpl. eauto.
Qed.

Lemma ellipse_inv covers (im : t) box fill :
  well_formed im ->
  let drawn := ImageDraw.ellipse covers im box fill in
  mode drawn = mode im /\ size drawn = size im /\ well_formed drawn /\
  forall x y, 0 <= x < width im -> 0 <= y < height im ->
    getpixel drawn x y =
      Some (if covers box x y then [fill]
            else default (black (mode im)) (getpixel im x y)).
Proof.
  intros (HW & HH & _). simpl. repeat split; try done.
  - unfold ImageDraw.ellipse. simpl. by rewrite raster_length.
  - intros x y Hx Hy. unfold ImageDraw.ellipse, width, height in *.
    by rewrite getpixel_grid.
Qed.

Lemma paste_inv (canvas im : t) ox oy out :
  well_formed canvas ->
  paste canvas im (ox, oy) = Returned out ->
  mode im = mode canvas /\
  mode out = mode canvas /\ size out = size canvas /\ well_formed out /\
  forall x y, 0 <= x < width canvas -> 0 <= y < height canvas ->
    getpixel out x y =
      Some (match getpixel im (x - ox) (y - oy) with
            | Some p => p
            | None => default (black (mode canvas)) (getpixel canvas x y)
            end).
Proof.
  intros (HW & HH & _). unfold paste.
  destruct (decide (mode im = mode canvas)); [|discriminate].
  intros [= <-]. repeat split; try done.
  - simpl. by rewrite raster_length.
  - intros x y Hx Hy. unfold width, height in *. by rewrite getpixel_grid.
Qed.

Lemma paste_returns (canvas im : t) at_ :
  mode im = mode canvas -> exists out, paste canvas im at_ = Returned out.
Proof.
  intros Hm. destruct at_ as [ox oy]. unfold paste.
  destruct (decide (mode im = mode canvas)); [eauto|done].
Qed.

Lemma putalpha_inv (canvas mask out : t) :
  well_formed canvas ->
  putalpha canvas mask = Returned out ->
  mode canvas = RGBA /\ mode mask = L /\ size mask = size canvas /\
  mode out = RGBA /\ size out = size canvas /\ well_formed out /\
  forall x y, 0 <= x < width canvas -> 0 <= y < height canvas ->
    getpixel out x y =
      Some (<[3%nat := default 0 (default [] (getpixel mask x y) !! 0%nat)]>
              (default (black RGBA) (getpixel canvas x y))).
Proof.
  intros (HW & HH & _). unfold putalpha.
  destruct (mode canvas) eqn:Ec; try discriminate.
  destruct (mode mask) eqn:Em; try discriminate.
  destruct (decide (size mask = size canvas)); [|discriminate].
  intros [= <-]. repeat split; try done.
  - simpl. by rewrite raster_length.
  - intros x y Hx Hy. unfold width, height in *. by rewrite getpixel_grid.
Qed.

Lemma putalpha_returns (canvas mask : t) :
  mode canvas = RGBA -> mode mask = L -> size mask = size canvas ->
  exists out, putalpha canvas mask = Returned out.
Proof.
  intros Hc Hm Hs. unfold putalpha. rewrite Hc, Hm.
  destruct (decide (size mask = size canvas)); [eauto|done].
Qed.

End Primitives.

(** ** The transform in memory *)

Section Render.
Import Image.
Variable LANCZOS : Image.filter.
Variable covers : ImageDraw.rasteriser.

Local Abbreviation mask_of sz mask0 :=
  (ImageDraw.ellipse covers mask0 (0, 0, fst sz, snd sz) 255).

(** The steps a returning run went through. *)
Lemma render_inv (im : t) sz out :
  render LANCZOS covers im sz = Returned out ->
  exists cropped resized mask0 canvas pasted,
    crop im (crop_box (width im) (height im)) = Returned cropped /\
    resize cropped sz LANCZOS = Returned resized /\
    new L sz [0] = Returned mask0 /\
    new RGBA sz [0; 0; 0; 0] = Returned canvas /\
    paste canvas resized (0, 0) = Returned pasted /\
    putalpha pasted (mask_of sz mask0) = Returned out.
Proof.
  unfold render, width, height. destruct (size im) as [W H]. simpl.
  intros Hr.
  apply bind_Returned in Hr as (cropped & Hc & Hr).
  apply bind_Returned in Hr as (resized & Hz & Hr).
  apply bind_Returned in Hr as (mask0 & Hm & Hr).
  apply bind_Returned in Hr as (canvas & Hn & Hr).
  apply bind_Returned in Hr as (pasted & Hp & Hr).
  apply bind_Returned in Hr as (out' & Ha & Hr).
  injection Hr as <-.
  by exists cropped, resized, mask0, canvas, pasted.
Qed.

Lemma render_steps (im : t) sz cropped resized mask0 canvas pasted out :
  crop im (crop_box (width im) (height im)) = Returned cropped ->
  resize cropped sz LANCZOS = Returned resized ->
  new L sz [0] = Returned mask0 ->
  new RGBA sz [0; 0; 0; 0] = Returned canvas ->
  paste canvas resized (0, 0) = Returned pasted ->
  putalpha pasted (mask_of sz mask0) = Returned out ->
  render LANCZOS covers im sz = Returned out.
Proof.
  unfold render, width, height. destruct (size im) as [W H]. simpl.
  intros Hc Hz Hm Hn Hp Ha.
  rewrite Hc. simpl. rewrite Hz. simpl. rewrite Hm. simpl.
  rewrite Hn. simpl. rewrite Hp. simpl. rewrite Ha. done.
Qed.

(** What a returning run produced, pixel by pixel. *)
Lemma render_pixels (im : t) sz cropped resized mask0 canvas pasted out :
  crop im (crop_box (width im) (height im)) = Returned cropped ->
  resize cropped sz LANCZOS = Returned resized ->
  new L sz [0] = Returned mask0 ->
  new RGBA sz [0; 0; 0; 0] = Returned canvas ->
  paste canvas resized (0, 0) = Returned pasted ->
  putalpha pasted (mask_of sz mask0) = Returned out ->
  mode out = RGBA /\ size out = sz /\ well_formed out /\
  forall x y, 0 <= x < fst sz -> 0 <= y < snd sz ->
    exists p,
      getpixel resized x y = Some p /\
      getpixel pasted x y = Some p /\
      getpixel out x y =
        Some (<[3%nat := if covers (0, 0, fst sz, snd sz) x y then 255 else 0]> p).
Proof.
  intros Hc Hz Hm Hn Hp Ha.
  apply crop_inv in Hc as (Hcm & Hcwf & _).
  apply resize_inv in Hz as (Hzm & Hzs & Hzwf); [|done].
  apply new_inv in Hm as (Hw & Hh & ->).
  apply new_inv in Hn as (_ & _ & ->).
  pose proof (grid_well_formed RGBA sz (fun _ _ => [0; 0; 0; 0]) Hw Hh) as Hcanvas.
  pose proof (grid_well_formed L sz (fun _ _ => [0]) Hw Hh) as Hmask0.
  apply paste_inv in Hp as (_ & Hpm & Hps & Hpwf & Hpx); [|done].
  apply putalpha_inv in Ha as (_ & _ & _ & Hom & Hos & Howf & Hox); [|done].
  pose proof (ellipse_inv covers _ (0, 0, fst sz, snd sz) 255 Hmask0)
    as (_ & _ & _ & Hmx).
  simpl in Hps. rewrite Hps in Hos.
  split; [done|]. split; [done|]. split; [done|].
  intros x y Hx Hy.
  destruct (getpixel_in_range resized x y) as [p Hpix];
    [done|unfold width; by rewrite Hzs|unfold height; by rewrite Hzs|].
  exists p. split; [done|].
  assert (getpixel pasted x y = Some p) as Hpasted.
  { rewrite Hpx by (unfold width, height; simpl; lia).
    by rewrite !Z.sub_0_r, Hpix. }
  split; [done|].
  rewrite Hox by (unfold width, height; rewrite Hps; simpl; lia).
  rewrite Hpasted, Hmx by (unfold width, height; simpl; lia).
  rewrite getpixel_grid by done.
  simpl. by destruct (covers (0, 0, fst sz, snd sz) x y).
Qed.

Lemma render_returns (im : t) sz :
  mode im = RGBA -> 0 <= width im -> 0 <= height im ->
  1 <= fst sz -> 1 <= snd sz ->
  exists out, render LANCZOS covers im sz = Returned out.
Proof.
  intros Hm HW HH Hw Hh.
  destruct (crop_box (width im) (height im)) as [[[l t'] r] b] eqn:Hbox.
  destruct (crop_box_bounds _ _ _ _ _ _ HW HH Hbox) as (Hl & _ & Ht & _).
  pose proof (crop_returns im l t' r b ltac:(lia) ltac:(lia)) as Hc.
  rewrite <- Hbox in Hc.
  destruct (crop_inv _ _ _ Hc) as (Hcm & Hcwf & _).
  destruct (resize_returns
              (mk_image (mode im) (r - l, b - t')
                 (raster (r - l) (b - t')
                    (fun x y => default (black (mode im))
                                  (getpixel im (x + l) (y + t')))))
              sz LANCZOS Hw Hh) as [resized Hz].
  destruct (resize_inv _ _ _ _ Hcwf Hz) as (Hzm & Hzs & Hzwf).
  pose proof (new_returns L sz [0] ltac:(lia) ltac:(lia)) as Hn0.
  pose proof (new_returns RGBA sz [0; 0; 0; 0] ltac:(lia) ltac:(lia)) as Hn1.
  destruct (paste_returns
              (mk_image RGBA sz (raster (fst sz) (snd sz) (fun _ _ => [0; 0; 0; 0])))
              resized (0, 0)) as [pasted Hp].
  { rewrite Hzm. simpl. done. }
  pose proof (grid_well_formed RGBA sz (fun _ _ => [0; 0; 0; 0])
                ltac:(lia) ltac:(lia)) as Hcanvas.
  destruct (paste_inv _ _ _ _ _ Hcanvas Hp) as (_ & Hpm & Hps & _).
  destruct (putalpha_returns pasted
              (mask_of sz (mk_image L sz (raster (fst sz) (snd sz) (fun _ _ => [0])))))
    as [out Ha]; [done|done|by rewrite Hps|].
  exists out. eapply render_steps; eauto.
Qed.

(** C3: the crop box is the one the specification computes, with the
    rational division floored; cropping to it yields a square of side
    [min(width, height)] whose pixel (x, y) is the source pixel
    (left + x, top + y), a half-open window copied without scaling; and the
    transform works on exactly this crop: in every run of lines 17-40 that
    returns, the image that is resized is the cropped square, and the
    colours of the result are those of the resized crop. *)
Theorem crop_is_centered_square (im : t) :
  well_formed im ->
  crop_box (width im) (height im) = spec_crop_box (width im) (height im) /\
  exists l t r b cropped,
    crop_box (width im) (height im) = (l, t, r, b) /\
    r = l + Z.min (width im) (height im) /\
    b = t + Z.min (width im) (height im) /\
    crop im (l, t, r, b) = Returned cropped /\
    size cropped = (Z.min (width im) (height im), Z.min (width im) (height im)) /\
    (forall x y, 0 <= x < r - l -> 0 <= y < b - t ->
       is_Some (getpixel im (l + x) (t + y)) /\
       getpixel cropped x y = getpixel im (l + x) (t + y)) /\
    (forall x y, ~ (0 <= x < r - l /\ 0 <= y < b - t) ->
       getpixel cropped x y = None) /\
    (forall sz out,
       render LANCZOS covers im sz = Returned out ->
       exists resized,
         resize cropped sz LANCZOS = Returned resized /\
         forall x y, 0 <= x < fst sz -> 0 <= y < snd sz ->
           exists p q,
             getpixel resized x y = Some p /\
             getpixel out x y = Some q /\
             rgb q = rgb p).
Proof.
  intros Hwf. split; [apply crop_box_spec|].
  destruct (crop_window im Hwf)
    as (l & t' & r & b & cropped & Hbox & Hr & Hb & Hcrop & Hsize & Hin & Hout).
  exists l, t', r, b, cropped. repeat (split; [done|]).
  intros sz out Hrender.
  destruct (render_inv _ _ _ Hrender)
    as (cropped' & resized & mask0 & canvas & pasted
        & Hc & Hz & Hm & Hn & Hp & Ha).
  destruct (render_pixels _ _ _ _ _ _ _ _ Hc Hz Hm Hn Hp Ha) as (_ & _ & _ & Hpx).
  rewrite Hbox, Hcrop in Hc. injection Hc as <-.
  exists resized. split; [done|].
  intros x y Hx Hy. destruct (Hpx x y Hx Hy) as (p & Hrp & _ & Hop).
  eexists p, _. repeat (split; [done|]).
  unfold rgb. by rewrite take_insert_ge.
Qed.

(** On an RGBA source the only exception the in-memory steps can raise is
    ValueError (a size below 1 by 1): the cases left outside the model of
    convert, paste and putalpha are never reached by the script. *)
Lemma render_raises_only_ValueError (im : t) sz e :
  mode im = RGBA ->
  render LANCZOS covers im sz = Raised e -> e = ValueError.
Proof.
  intros Hm. unfold render, width, height. destruct (size im) as [W H].
  destruct (crop im (crop_box W H)) as [cropped|e1] eqn:Hc;
    rewrite ?bind_ret, ?bind_raise.
  2: { intros [= <-]. unfold crop in Hc.
       destruct (crop_box W H) as [[[x0 y0] x1] y1].
       destruct (x1 <? x0); [congruence|]. destruct (y1 <? y0); congruence. }
  destruct (crop_inv _ _ _ Hc) as (Hcm & Hcwf & _).
  destruct (resize cropped sz LANCZOS) as [resized|e1] eqn:Hz;
    rewrite ?bind_ret, ?bind_raise.
  2: { intros [= <-]. unfold resize in Hz.
       destruct (decide (size cropped = sz)); [congruence|].
       destruct (_ || _); congruence. }
  destruct (resize_inv _ _ _ _ Hcwf Hz) as (Hzm & Hzs & Hzwf).
  destruct (new L sz [0]) as [mask0|e1] eqn:Hn0; rewrite ?bind_ret, ?bind_raise.
  2: { intros [= <-]. unfold new in Hn0. destruct (_ || _); congruence. }
  destruct (new RGBA sz [0; 0; 0; 0]) as [canvas|e1] eqn:Hn1;
    rewrite ?bind_ret, ?bind_raise.
  2: { intros [= <-]. unfold new in Hn1. destruct (_ || _); congruence. }
  apply new_inv in Hn0 as (Hw & Hh & ->).
  apply new_inv in Hn1 as (_ & _ & ->).
  pose proof (grid_well_formed RGBA sz (fun _ _ => [0; 0; 0; 0]) Hw Hh) as Hcanvas.
  destruct (paste_returns
              (mk_image RGBA sz (raster (fst sz) (snd sz) (fun _ _ => [0; 0; 0; 0])))
              resized (0, 0)) as [pasted Hp];
    [by rewrite Hzm, Hcm, Hm|].
  rewrite Hp, bind_ret.
  destruct (paste_inv _ _ _ _ _ Hcanvas Hp) as (_ & Hpm & Hps & _).
  destruct (putalpha_returns pasted
              (mask_of sz (mk_image L sz (raster (fst sz) (snd sz) (fun _ _ => [0])))))
    as [out Ha]; [done|done|by rewrite Hps|].
  rewrite Ha, bind_ret. discriminate.
Qed.

(** Whatever the source was, a returning run hands back an RGBA image of
    the requested size. *)
Lemma render_shape (im : t) sz out :
  render LANCZOS covers im sz = Returned out ->
  mode out = RGBA /\ size out = sz /\ well_formed out.
Proof.
  intros Hr.
  destruct (render_inv _ _ _ Hr)
    as (cropped & resized & mask0 & canvas & pasted & Hc & Hz & Hm & Hn & Hp & Ha).
  destruct (render_pixels _ _ _ _ _ _ _ _ Hc Hz Hm Hn Hp Ha) as (? & ? & ? & _).
  done.
Qed.

(** The alpha the mask leaves behind is the fill value where the rasteriser
    covers the pixel and 0 elsewhere, nothing in between. *)
Lemma alpha_is_mask (im : t) sz out x y :
  render LANCZOS covers im sz = Returned out ->
  0 <= x < fst sz -> 0 <= y < snd sz ->
  exists q, getpixel out x y = Some q /\
    (alpha q = None \/
     alpha q = Some (if covers (0, 0, fst sz, snd sz) x y then 255 else 0)).
Proof.
  intros Hr Hx Hy.
  destruct (render_inv _ _ _ Hr)
    as (cropped & resized & mask0 & canvas & pasted & Hc & Hz & Hm & Hn & Hp & Ha).
  destruct (render_pixels _ _ _ _ _ _ _ _ Hc Hz Hm Hn Hp Ha) as (_ & _ & _ & Hpx).
  destruct (Hpx x y Hx Hy) as (p & _ & _ & Hq).
  eexists. split; [done|]. unfold alpha.
  destruct (decide (3 < length p)%nat) as [Hlen|Hlen].
  - right. by apply list_lookup_insert_eq.
  - left. apply lookup_ge_None. rewrite length_insert. lia.
Qed.

(** C6: putalpha touches band 3 only.  At every position of the output the
    pixel differs from the pasted canvas in no band other than alpha, so its
    RGB is the resized image's RGB there, whether or not the mask makes the
    pixel transparent. *)
Theorem putalpha_changes_alpha_only (im : t) sz out :
  render LANCZOS covers im sz = Returned out ->
  exists cropped resized mask0 canvas pasted,
    crop im (crop_box (width im) (height im)) = Returned cropped /\
    resize cropped sz LANCZOS = Returned resized /\
    new L sz [0] = Returned mask0 /\
    new RGBA sz [0; 0; 0; 0] = Returned canvas /\
    paste canvas resized (0, 0) = Returned pasted /\
    putalpha pasted (mask_of sz mask0) = Returned out /\
    forall x y, 0 <= x < fst sz -> 0 <= y < snd sz ->
      exists p q,
        getpixel resized x y = Some p /\
        getpixel pasted x y = Some p /\
        getpixel out x y = Some q /\
        rgb q = rgb p /\
        length q = length p /\
        forall band, band <> 3%nat -> q !! band = p !! band.
Proof.
  intros Hr.
  destruct (render_inv _ _ _ Hr)
    as (cropped & resized & mask0 & canvas & pasted & Hc & Hz & Hm & Hn & Hp & Ha).
  exists cropped, resized, mask0, canvas, pasted.
  repeat (split; [done|]).
  destruct (render_pixels _ _ _ _ _ _ _ _ Hc Hz Hm Hn Hp Ha) as (_ & _ & _ & Hpx).
  intros x y Hx Hy. destruct (Hpx x y Hx Hy) as (p & Hrp & Hpp & Hop).
  eexists p, _. do 3 (split; [done|]).
  split; [|split].
  - unfold rgb. by rewrite take_insert_ge.
  - by rewrite length_insert.
  - intros band Hne. by rewrite list_lookup_insert_ne.
Qed.

End Render.

(** ** The transform and the loop body on the file system *)

Section Driver.
Variable decode : list Byte.byte -> source.
Variable LANCZOS : Image.filter.
Variable covers : ImageDraw.rasteriser.
Variable encode_png : Image.t -> list Byte.byte.

Local Abbreviation transform :=
  (create_rounded_portrait decode LANCZOS covers encode_png).
Local Abbreviation bytes_of := (portrait_of decode LANCZOS covers encode_png).
Local Abbreviation step := (process decode LANCZOS covers encode_png).
Local Abbreviation loop := (fun ps => for_each ps step).
Local Abbreviation script := (main decode LANCZOS covers encode_png).

Lemma transform_eq i o sz w :
  transform i o sz w =
    match bytes_of i (files w !! i) sz with
    | Raised e => (Raised e, w)
    | Returned bytes =>
        match files w !! o with
        | Some Dir => (Raised (IsADirectoryError o), w)
        | _ => (Returned tt,
                mk_world (<[o := File bytes]> (files w))
                         (stdout w ++ ["Created " +:+ o]))
        end
    end.
Proof.
  unfold create_rounded_portrait, portrait_of, mbind, M_bind, bind,
    Image_open, lift.
  destruct (files w !! i) as [[content|]|]; [|done|done].
  destruct (decode content) as [| |img]; [done|done|].
  unfold outcome_bind, obind, load.
  destruct (Image.convert img Image.RGBA) as [rgba|e]; [|done].
  destruct (render LANCZOS covers rgba sz) as [out|e]; [|done].
  unfold Image_save, print, mret, outcome_ret. simpl.
  by destruct (files w !! o) as [[?|]|].
Qed.

Lemma step_eq i o w :
  step (i, o) w =
    match files w !! i with
    | None => (Returned tt,
               mk_world (files w)
                        (stdout w ++ ["Warning: " +:+ i +:+ " not found"]))
    | Some _ => transform i o size_default w
    end.
Proof.
  unfold process, mbind, M_bind, bind, os_path_exists.
  by destruct (files w !! i).
Qed.

(** The three ways an iteration can go. *)
Lemma step_cases i o w :
  (files w !! i = None /\
   step (i, o) w =
     (Returned tt, mk_world (files w) (stdout w ++ [report (files w) (i, o)])))
  \/ (exists bytes,
        is_Some (files w !! i) /\ files w !! o <> Some Dir /\
        bytes_of i (files w !! i) size_default = Returned bytes /\
        step (i, o) w =
          (Returned tt, mk_world (<[o := File bytes]> (files w))
                                 (stdout w ++ [report (files w) (i, o)])))
  \/ (exists e,
        is_Some (files w !! i) /\ step (i, o) w = (Raised e, w) /\
        forall w2, files w2 !! i = files w !! i ->
                   files w2 !! o = files w !! o ->
                   step (i, o) w2 = (Raised e, w2)).
Proof.
  rewrite step_eq. unfold report. cbn [fst snd].
  destruct (files w !! i) as [entry|] eqn:Ei; [|by left].
  right. rewrite transform_eq, Ei.
  destruct (bytes_of i (Some entry) size_default) as [bytes|e] eqn:Eb.
  - destruct (files w !! o) as [[content|]|] eqn:Eo.
    + left. by exists bytes.
    + right. exists (IsADirectoryError o).
      split; [done|]. split; [done|].
      intros w2 Hi Ho. by rewrite step_eq, Hi, transform_eq, Hi, Eb, Ho.
    + left. by exists bytes.
  - right. exists e. split; [done|]. split; [done|].
    intros w2 Hi Ho. by rewrite step_eq, Hi, transform_eq, Hi, Eb.
Qed.

Lemma step_frame i o w r w1 :
  step (i, o) w = (r, w1) ->
  forall p, p <> o -> files w1 !! p = files w !! p.
Proof.
  intros Hs p Hp.
  destruct (step_cases i o w)
    as [(_ & E)|[(b & _ & _ & _ & E)|(e & _ & E & _)]];
    rewrite E in Hs; injection Hs as <- <-; simpl; [done| |done].
  by rewrite lookup_insert_ne.
Qed.


Lemma loop_cons p ps w :
  loop (p :: ps) w =
    match step p w with
    | (Returned _, w1) => loop ps w1
    | (Raised e, w1) => (Raised e, w1)
    end.
Proof. reflexivity. Qed.

Lemma loop_frame ps w r w1 :
  loop ps w = (r, w1) ->
  forall p, p ∉ ps.*2 -> files w1 !! p = files w !! p.
Proof.
  revert w. induction ps as [|[i o] ps IH]; intros w Hl p Hp.
  - by injection Hl as <- <-.
  - rewrite loop_cons in Hl. simpl in Hp.
    apply not_elem_of_cons in Hp as [Hpo Hp].
    destruct (step (i, o) w) as [[[]|e] wa] eqn:Es.
    + rewrite (IH _ Hl p Hp). by eapply step_frame.
    + injection Hl as <- <-. by eapply step_frame.
Qed.


(** What a returning run of the loop printed and wrote, read off the files
    it started from. *)
Lemma loop_returns ps :
  Forall (fun p => p.1 ∉ ps.*2) ps -> NoDup ps.*2 ->
  forall w w1, loop ps w = (Returned tt, w1) ->
    stdout w1 = stdout w ++ map (report (files w)) ps /\
    forall i o, (i, o) ∈ ps ->
      match files w !! i with
      | None => files w1 !! o = files w !! o
      | Some _ =>
          exists bytes,
            bytes_of i (files w !! i) size_default = Returned bytes /\
            files w1 !! o = Some (File bytes)
      end.
Proof.
  induction ps as [|[i0 o0] ps IH]; intros Hin Hnd w w1 Hl.
  - injection Hl as <-. split; [by rewrite app_nil_r|].
    intros i o Hel. by apply elem_of_nil in Hel.
  - simpl in Hin, Hnd.
    apply Forall_cons in Hin as [Hi0 Hin]. simpl in Hi0.
    apply not_elem_of_cons in Hi0 as [Hio Hi0].
    apply NoDup_cons in Hnd as [Ho0 Hnd].
    assert (forall i o, (i, o) ∈ ps -> i <> o0 /\ o <> o0) as Hsep.
    { intros i o Hel. split.
      - rewrite Forall_forall in Hin. specialize (Hin _ Hel). simpl in Hin.
        by apply not_elem_of_cons in Hin as [? _].
      - intros ->. apply Ho0. apply list_elem_of_fmap. by exists (i, o0). }
    assert (Forall (fun p => p.1 ∉ ps.*2) ps) as Hin'.
    { eapply Forall_impl; [exact Hin|]. simpl. intros p Hp.
      by apply not_elem_of_cons in Hp as [_ ?]. }
    rewrite loop_cons in Hl.
    destruct (step_cases i0 o0 w)
      as [(Ei & E)|[(b & Ei & Eo & Eb & E)|(e & _ & E & _)]];
      rewrite E in Hl; [| |discriminate].
    + destruct (IH Hin' Hnd _ _ Hl) as [Hout Hfiles]. simpl in Hout, Hfiles.
      split; [by rewrite Hout, <- app_assoc|].
      intros i o Hel. apply elem_of_cons in Hel as [Hhd|Hel].
      * injection Hhd as -> ->.
        rewrite Ei. by rewrite (loop_frame _ _ _ _ Hl o0 Ho0).
      * by apply Hfiles.
    + destruct (IH Hin' Hnd _ _ Hl) as [Hout Hfiles]. simpl in Hout, Hfiles.
      split.
      * rewrite Hout, <- app_assoc. f_equal. simpl. f_equal.
        apply map_ext_in. intros [i o] Hel.
        apply list_elem_of_In, Hsep in Hel as [Hi _].
        unfold report. simpl. by rewrite lookup_insert_ne.
      * intros i o Hel. apply elem_of_cons in Hel as [Hhd|Hel].
        -- injection Hhd as -> ->.
           destruct Ei as [entry Ei]. rewrite Ei. exists b.
           split; [by rewrite <- Ei|].
           rewrite (loop_frame _ _ _ _ Hl o0 Ho0). simpl.
           by rewrite lookup_insert_eq.
        -- destruct (Hsep _ _ Hel) as [Hi Ho].
           specialize (Hfiles _ _ Hel).
           rewrite !lookup_insert_ne in Hfiles by done. done.
Qed.

Lemma script_eq w :
  script w =
    match loop philosophers w with
    | (Returned _, w1) =>
        (Returned tt,
         mk_world (files w1)
           (stdout w1 ++
              [newline +:+ "All portraits processed!";
               "Move the -rounded.png files to the parent directory to use them."]))
    | (Raised e, w1) => (Raised e, w1)
    end.
Proof.
  unfold main, mbind, M_bind, bind.
  destruct (for_each philosophers step w) as [[[]|e] w1]; [|done].
  unfold print. simpl. by rewrite <- app_assoc.
Qed.

Lemma philosophers_inputs_fresh :
  Forall (fun p : string * string => p.1 ∉ philosophers.*2) philosophers.
Proof.
  unfold philosophers. repeat (apply Forall_cons_2; [|]); [..|apply Forall_nil_2];
    simpl; rewrite ?not_elem_of_cons; repeat split;
    first [discriminate | apply not_elem_of_nil].
Qed.

Lemma philosophers_outputs_distinct : NoDup philosophers.*2.
Proof.
  unfold philosophers. simpl.
  repeat (apply NoDup_cons_2;
          [rewrite ?not_elem_of_cons; repeat split;
           first [discriminate | apply not_elem_of_nil]|]).
  apply NoDup_nil_2.
Qed.
Lemma bytes_of_image i content img sz :
  decode content = Decodable img ->
  bytes_of i (Some (File content)) sz =
    (rgba ← Image.convert img Image.RGBA;
     out ← render LANCZOS covers rgba sz;
     mret (encode_png out)).
Proof. intros Hd. unfold portrait_of. by rewrite Hd. Qed.

(** C2: for a decodable source of at least one pixel each way, whatever its
    width, height and aspect ratio, the file a returning call has written
    under the output path is the encoding of the image lines 17-40 produce
    from the source, and that image is RGBA and has exactly the requested
    size, (50, 50) when the size is left at its default. *)
Theorem output_has_requested_size w input_path output_path content img sz :
  files w !! input_path = Some (File content) ->
  decode content = Decodable img ->
  1 <= Image.width img -> 1 <= Image.height img ->
  forall w1,
    create_rounded_portrait decode LANCZOS covers encode_png
      input_path output_path sz w = (Returned tt, w1) ->
    exists rgba out,
      Image.convert img Image.RGBA = Returned rgba /\
      render LANCZOS covers rgba sz = Returned out /\
      files w1 !! output_path = Some (File (encode_png out)) /\
      Image.mode out = Image.RGBA /\ Image.size out = sz.
Proof.
  intros Hf Hd HW HH w1.
  destruct (convert_rgba img) as (rgba & Hc & Hm & Hs).
  rewrite transform_eq, Hf, (bytes_of_image _ _ _ _ Hd), Hc.
  rewrite bind_ret.
  destruct (render LANCZOS covers rgba sz) as [out|e] eqn:Er;
    rewrite ?bind_ret, ?bind_raise; [|discriminate].
  destruct (render_shape _ _ _ _ _ Er) as (Hom & Hos & _).
  unfold mret, outcome_ret.
  destruct (files w !! output_path) as [[?|]|]; intros [= <-]; simpl;
    exists rgba, out; by rewrite lookup_insert_eq.
Qed.

Lemma loop_skip i o rest w :
  files w !! i = None ->
  step (i, o) w =
    (Returned tt,
     mk_world (files w) (stdout w ++ ["Warning: " +:+ i +:+ " not found"])) /\
  loop ((i, o) :: rest) w =
    loop rest
      (mk_world (files w) (stdout w ++ ["Warning: " +:+ i +:+ " not found"])).
Proof.
  intros Hi.
  assert (step (i, o) w =
            (Returned tt,
             mk_world (files w)
               (stdout w ++ ["Warning: " +:+ i +:+ " not found"]))) as Hs
    by (by rewrite step_eq, Hi).
  split; [done|]. by rewrite loop_cons, Hs.
Qed.

(** C4: a pair whose input is missing makes the loop body print the warning
    with that very file name, change no file and return, and the loop goes on
    with the pairs that follow; in every run that completes, each missing
    input has its warning on the console and its output untouched; and when
    all five inputs are missing the script returns after printing the five
    warnings and the two closing lines, leaving every file as it was. *)
Theorem missing_input_warns_and_continues :
  (forall w i o rest, files w !! i = None ->
     let warned :=
       mk_world (files w) (stdout w ++ ["Warning: " +:+ i +:+ " not found"]) in
     process decode LANCZOS covers encode_png
       (i, o) w = (Returned tt, warned) /\
     for_each ((i, o) :: rest) (process decode LANCZOS covers encode_png) w =
       for_each rest (process decode LANCZOS covers encode_png) warned) /\
  (forall w w1, main decode LANCZOS covers encode_png w = (Returned tt, w1) ->
     forall i o, (i, o) ∈ philosophers -> files w !! i = None ->
       "Warning: " +:+ i +:+ " not found" ∈ stdout w1 /\
       files w1 !! o = files w !! o) /\
  (forall w,
     files w !! "socrates.jpg" = None ->
     files w !! "plato.jpg" = None ->
     files w !! "aristotle.jpg" = None ->
     files w !! "nietzsche.jpg" = None ->
     files w !! "descartes.jpg" = None ->
     main decode LANCZOS covers encode_png w =
       (Returned tt,
        mk_world (files w)
          (stdout w ++
             ["Warning: socrates.jpg not found";
              "Warning: plato.jpg not found";
              "Warning: aristotle.jpg not found";
              "Warning: nietzsche.jpg not found";
              "Warning: descartes.jpg not found";
              newline +:+ "All portraits processed!";
              "Move the -rounded.png files to the parent directory to use them."]))).
Proof.
  split; [|split].
  - intros w i o rest Hi warned. subst warned. by apply loop_skip.
  - intros w w1. rewrite script_eq.
    destruct (loop philosophers w) as [[[]|e] wl] eqn:Hl; [|discriminate].
    intros [= <-] i o Hel Hi. simpl.
    destruct (loop_returns _ philosophers_inputs_fresh
                philosophers_outputs_distinct _ _ Hl) as [Hout Hfiles].
    specialize (Hfiles _ _ Hel). rewrite Hi in Hfiles.
    split; [|done].
    rewrite Hout. apply elem_of_app. left. apply elem_of_app. right.
    apply list_elem_of_In, in_map_iff. exists (i, o).
    split; [|by apply list_elem_of_In].
    unfold report. simpl. by rewrite Hi.
  - intros w H1 H2 H3 H4 H5. rewrite script_eq. unfold philosophers.
    rewrite (proj2 (loop_skip _ _ _ _ H1)).
    erewrite (proj2 (loop_skip _ _ _ (mk_world (files w) _) H2)).
    erewrite (proj2 (loop_skip _ _ _ (mk_world (files w) _) H3)).
    erewrite (proj2 (loop_skip _ _ _ (mk_world (files w) _) H4)).
    erewrite (proj2 (loop_skip _ _ _ (mk_world (files w) _) H5)).
    simpl. by rewrite <- !app_assoc.
Qed.

(** C5: the script is the loop body run on exactly the five pairs, socrates,
    plato, aristotle, nietzsche, descartes, in that order, the body calling
    the transform with size (50, 50) when the input exists; accordingly a run
    that completes has printed one line per pair in that order, has written
    for each existing input the 50 by 50 portrait of that input to the paired
    output name, and has left every other path alone. *)
Theorem driver_runs_five_pairs_at_50 :
  let each := fun input_file output_file : string =>
    (found ← os_path_exists input_file;
     if found : bool return M unit
     then create_rounded_portrait decode LANCZOS covers encode_png
            input_file output_file (50, 50)
     else print ("Warning: " +:+ input_file +:+ " not found")) in
  main decode LANCZOS covers encode_png =
    ((each "socrates.jpg" "socrates-rounded.png";;
      each "plato.jpg" "plato-rounded.png";;
      each "aristotle.jpg" "aristotle-rounded.png";;
      each "nietzsche.jpg" "nietzsche-rounded.png";;
      each "descartes.jpg" "descartes-rounded.png";;
      ret tt);;
     print (newline +:+ "All portraits processed!");;
     print "Move the -rounded.png files to the parent directory to use them.") /\
  forall w w1, main decode LANCZOS covers encode_png w = (Returned tt, w1) ->
    let line := fun i o : string =>
      match files w !! i with
      | Some _ => "Created " +:+ o
      | None => "Warning: " +:+ i +:+ " not found"
      end in
    stdout w1 =
      stdout w ++
        [line "socrates.jpg" "socrates-rounded.png";
         line "plato.jpg" "plato-rounded.png";
         line "aristotle.jpg" "aristotle-rounded.png";
         line "nietzsche.jpg" "nietzsche-rounded.png";
         line "descartes.jpg" "descartes-rounded.png";
         newline +:+ "All portraits processed!";
         "Move the -rounded.png files to the parent directory to use them."] /\
    (forall i o,
       (i, o) ∈ [("socrates.jpg", "socrates-rounded.png");
                 ("plato.jpg", "plato-rounded.png");
                 ("aristotle.jpg", "aristotle-rounded.png");
                 ("nietzsche.jpg", "nietzsche-rounded.png");
                 ("descartes.jpg", "descartes-rounded.png")] ->
       match files w !! i with
       | Some entry =>
           exists bytes,
             portrait_of decode LANCZOS covers encode_png
               i (Some entry) (50, 50) = Returned bytes /\
             files w1 !! o = Some (File bytes)
       | None => files w1 !! o = files w !! o
       end) /\
    (forall p,
       p ∉ ["socrates-rounded.png"; "plato-rounded.png";
            "aristotle-rounded.png"; "nietzsche-rounded.png";
            "descartes-rounded.png"] ->
       files w1 !! p = files w !! p).
Proof.
  split; [reflexivity|].
  intros w w1. rewrite script_eq.
  destruct (loop philosophers w) as [[[]|e] wl] eqn:Hl; [|discriminate].
  intros [= <-] line. simpl.
  destruct (loop_returns _ philosophers_inputs_fresh
              philosophers_outputs_distinct _ _ Hl) as [Hout Hfiles].
  split; [|split].
  - rewrite Hout, <- app_assoc. reflexivity.
  - intros i o Hel. specialize (Hfiles i o Hel).
    destruct (files w !! i) as [entry|] eqn:Ei; [|done].
    destruct Hfiles as (bytes & Hb & Hw). by exists bytes.
  - intros p Hp. by apply (loop_frame _ _ _ _ Hl).
Qed.


End Driver.

(** ** The theorems at work on the small back end *)

Section Examples.
Import Image.

Local Abbreviation demo_transform :=
  (create_rounded_portrait Demo.decode Demo.nearest Demo.covers Demo.encode).
Local Abbreviation demo_script :=
  (main Demo.decode Demo.nearest Demo.covers Demo.encode).

Lemma demo_image_well_formed : well_formed Demo.image.
Proof.
  unfold well_formed, width, height. simpl.
  split; [lia|]. split; [lia|]. reflexivity.
Qed.

Lemma demo_square_well_formed : well_formed Demo.square.
Proof.
  unfold well_formed, width, height. simpl.
  split; [lia|]. split; [lia|]. reflexivity.
Qed.

(** With only socrates.jpg in place the script runs to completion. *)
Lemma demo_run_returns :
  demo_script Demo.only_socrates =
    (Returned tt, (demo_script Demo.only_socrates).2).
Proof.
  transitivity ((demo_script Demo.only_socrates).1,
                (demo_script Demo.only_socrates).2).
  - apply surjective_pairing.
  - f_equal; lazy; reflexivity.
Defined.

Lemma crop_is_centered_square_witness :
  well_formed Demo.image /\
  crop_box 4 2 = (1, 0, 3, 2) /\
  exists l t r b cropped out,
    crop_box (width Demo.image) (height Demo.image) = (l, t, r, b) /\
    crop Demo.image (l, t, r, b) = Returned cropped /\
    size cropped = (2, 2) /\
    render Demo.nearest Demo.covers Demo.image (6, 6) = Returned out /\
    exists resized,
      resize cropped (6, 6) Demo.nearest = Returned resized /\
      exists p q,
        getpixel resized 2 3 = Some p /\ getpixel out 2 3 = Some q /\
        rgb q = rgb p.
Proof.
  split; [exact demo_image_well_formed|]. split; [reflexivity|].
  destruct (crop_is_centered_square Demo.nearest Demo.covers Demo.image
              demo_image_well_formed)
    as (_ & l & t' & r & b & cropped & Hbox & _ & _ & Hcrop & Hsize & _ & _
        & Hrender).
  destruct (render Demo.nearest Demo.covers Demo.image (6, 6)) as [out|e] eqn:Er;
    [|vm_compute in Er; discriminate].
  destruct (Hrender (6, 6) out Er) as (resized & Hz & Hpx).
  exists l, t', r, b, cropped, out. repeat (split; [done|]).
  exists resized. split; [done|].
  apply Hpx; simpl; lia.
Defined.

Lemma crop_square_identity_witness :
  width Demo.square = height Demo.square /\
  crop_box 2 2 = (0, 0, 2, 2) /\
  crop Demo.square (crop_box 2 2) = Returned Demo.square.
Proof.
  split; [reflexivity|].
  destruct (crop_square_identity Demo.square eq_refl) as [Hbox Hcrop].
  split; [exact Hbox|]. exact (Hcrop demo_square_well_formed).
Defined.

Lemma crop_margins_symmetric_witness :
  crop_box 5 2 = (1, 0, 3, 2) /\ (5 - 3) - 1 = 1 /\
  crop_box 2 6 = (0, 2, 2, 4) /\ 2 = 6 - 4.
Proof.
  split; [reflexivity|].
  split.
  { apply (crop_margins_symmetric 5 2 1 0 3 2); [lia|reflexivity|lia|reflexivity]. }
  split; [reflexivity|].
  apply (crop_margins_symmetric 2 6 0 2 2 4); [lia|reflexivity|lia|reflexivity].
Defined.

Lemma crop_box_in_bounds_witness :
  crop_box 200 100 = (50, 0, 150, 100) /\
  0 <= 50 /\ 50 <= 150 /\ 150 <= 200 /\ 0 <= 0 /\ 0 <= 100 /\ 100 <= 100 /\
  150 - 50 = Z.min 200 100 /\ 100 - 0 = Z.min 200 100.
Proof.
  split; [reflexivity|].
  apply (crop_box_in_bounds 200 100 50 0 150 100); [lia|lia|reflexivity].
Defined.

Lemma putalpha_changes_alpha_only_witness :
  exists out,
    render Demo.nearest Demo.covers Demo.image (6, 6) = Returned out /\
    exists p q,
      getpixel out 0 0 = Some q /\ alpha q = Some 0 /\
      rgb q = rgb p /\ rgb p = [20; 20; 20].
Proof.
  destruct (render Demo.nearest Demo.covers Demo.image (6, 6)) as [out|e] eqn:Er;
    [|vm_compute in Er; discriminate].
  exists out. split; [reflexivity|].
  destruct (putalpha_changes_alpha_only Demo.nearest Demo.covers
              Demo.image (6, 6) out Er)
    as (cropped & resized & mask0 & canvas & pasted
        & Hc & Hz & _ & _ & _ & _ & Hpx).
  destruct (Hpx 0 0 ltac:(simpl; lia) ltac:(simpl; lia))
    as (p & q & Hp & _ & Hq & Hrgb & _ & _).
  exists p, q. split; [exact Hq|].
  vm_compute in Er. injection Er as <-.
  vm_compute in Hq. injection Hq as <-.
  split; [reflexivity|]. split; [exact Hrgb|].
  rewrite <- Hrgb. reflexivity.
Defined.

(** With socrates.jpg in place the transform returns. *)
Lemma demo_transform_returns :
  demo_transform "socrates.jpg" "socrates-rounded.png" size_default
    Demo.only_socrates =
  (Returned tt,
   (demo_transform "socrates.jpg" "socrates-rounded.png" size_default
      Demo.only_socrates).2).
Proof.
  transitivity
    ((demo_transform "socrates.jpg" "socrates-rounded.png" size_default
        Demo.only_socrates).1,
     (demo_transform "socrates.jpg" "socrates-rounded.png" size_default
        Demo.only_socrates).2).
  - apply surjective_pairing.
  - f_equal; lazy; reflexivity.
Defined.

Lemma output_has_requested_size_witness :
  exists out,
    files (demo_transform "socrates.jpg" "socrates-rounded.png" size_default
             Demo.only_socrates).2 !! "socrates-rounded.png" =
      Some (File (Demo.encode out)) /\
    mode out = RGBA /\ size out = (50, 50).
Proof.
  destruct (output_has_requested_size Demo.decode Demo.nearest Demo.covers
              Demo.encode Demo.only_socrates "socrates.jpg"
              "socrates-rounded.png" Demo.picture Demo.decoded (50, 50))
    with (w1 := (demo_transform "socrates.jpg" "socrates-rounded.png"
                   size_default Demo.only_socrates).2)
    as (rgba & out & _ & _ & Hfile & Hmode & Hsize).
  - vm_compute. reflexivity.
  - vm_compute. reflexivity.
  - unfold width. simpl. lia.
  - unfold height. simpl. lia.
  - exact demo_transform_returns.
  - by exists out.
Defined.

Lemma missing_input_warns_and_continues_witness :
  demo_script Demo.empty_world =
    (Returned tt,
     mk_world ∅
       ["Warning: socrates.jpg not found";
        "Warning: plato.jpg not found";
        "Warning: aristotle.jpg not found";
        "Warning: nietzsche.jpg not found";
        "Warning: descartes.jpg not found";
        newline +:+ "All portraits processed!";
        "Move the -rounded.png files to the parent directory to use them."]) /\
  "Warning: plato.jpg not found" ∈ stdout (demo_script Demo.only_socrates).2.
Proof.
  pose proof (missing_input_warns_and_continues Demo.decode Demo.nearest
                Demo.covers Demo.encode) as (_ & Hrun & Hnone).
  split.
  - apply (Hnone Demo.empty_world); vm_compute; reflexivity.
  - apply (Hrun Demo.only_socrates (demo_script Demo.only_socrates).2
             demo_run_returns "plato.jpg" "plato-rounded.png").
    + unfold philosophers. apply list_elem_of_further, list_elem_of_here.
    + vm_compute. reflexivity.
Defined.

Lemma driver_runs_five_pairs_at_50_witness :
  stdout (demo_script Demo.only_socrates).2 =
    ["Created socrates-rounded.png";
     "Warning: plato.jpg not found";
     "Warning: aristotle.jpg not found";
     "Warning: nietzsche.jpg not found";
     "Warning: descartes.jpg not found";
     newline +:+ "All portraits processed!";
     "Move the -rounded.png files to the parent directory to use them."] /\
  files (demo_script Demo.only_socrates).2 !! "socrates.jpg" =
    Some (File Demo.picture).
Proof.
  pose proof (proj2 (driver_runs_five_pairs_at_50 Demo.decode Demo.nearest
                       Demo.covers Demo.encode)
                Demo.only_socrates (demo_script Demo.only_socrates).2
                demo_run_returns) as (Hout & _ & Hframe).
  split.
  - rewrite Hout. vm_compute. reflexivity.
  - rewrite Hframe; [vm_compute; reflexivity|].
    rewrite !not_elem_of_cons. repeat split;
      first [discriminate | apply not_elem_of_nil].
Defined.


End Examples.

(** ** More on the crop *)

Section CropMore.
Import Image.

Lemma raster_ext w h f g :
  (forall x y, 0 <= x < w -> 0 <= y < h -> f x y = g x y) ->
  raster w h f = raster w h g.
Proof.
  intros Hfg. unfold raster. apply map_ext_in. intros i Hi.
  apply in_seq in Hi.
  assert (0 < w) as Hpos by (destruct (Z.to_nat w) eqn:E; lia).
  apply Hfg.
  - apply Z.mod_pos_bound; lia.
  - split; [apply Z.div_pos; lia|]. apply Z.div_lt_upper_bound; nia.
Qed.

Lemma crop_whole (im : t) :
  well_formed im -> crop im (0, 0, width im, height im) = Returned im.
Proof.
  intros (HW & HH & Hlen).
  rewrite crop_returns by lia. f_equal. rewrite !Z.sub_0_r.
  pose proof (raster_getpixel im (conj HW (conj HH Hlen))) as Hgrid.
  destruct im as [m [w h] d]. unfold width, height in *. simpl in *.
  f_equal. etrans; [|exact Hgrid].
  apply raster_ext. intros x y _ _. by rewrite !Z.add_0_r.
Qed.

(** X9: exchanging width and height exchanges the axes of the crop box and
    nothing else: a portrait is cut exactly as the landscape it is the
    transpose of. *)
Theorem crop_box_transpose (width height : Z) :
  crop_box height width =
    (let '(l, t, r, b) := crop_box width height in (t, l, b, r)).
Proof. rewrite !crop_box_eq. by rewrite (Z.min_comm height width). Qed.

(** X10: whenever the crop of lines 18-27 returns, its result is square and
    cropping it again with the same rule takes the whole of it and returns
    it unchanged: the centre crop is idempotent. *)
Theorem crop_twice (im cropped : t) :
  crop im (crop_box (width im) (height im)) = Returned cropped ->
  width cropped = Z.min (width im) (height im) /\
  height cropped = Z.min (width im) (height im) /\
  crop_box (width cropped) (height cropped) =
    (0, 0, width cropped, height cropped) /\
  crop cropped (crop_box (width cropped) (height cropped)) = Returned cropped.
Proof.
  intros Hc.
  destruct (crop_inv _ _ _ Hc) as (_ & Hwf & Hsize).
  rewrite crop_box_eq in Hsize. simpl in Hsize.
  assert (width cropped = Z.min (width im) (height im)) as HW
    by (unfold width at 1; rewrite Hsize; simpl; lia).
  assert (height cropped = Z.min (width im) (height im)) as HH
    by (unfold height at 1; rewrite Hsize; simpl; lia).
  assert (crop_box (width cropped) (height cropped) =
            (0, 0, width cropped, height cropped)) as Hbox.
  { rewrite crop_box_eq, HW, HH, Z.min_id, Z.sub_diag. reflexivity. }
  repeat (split; [done|]).
  rewrite Hbox. by apply crop_whole.
Qed.

End CropMore.

(** ** More on the transform in memory *)

Section RenderMore.
Import Image.
Variable LANCZOS : Image.filter.
Variable covers : ImageDraw.rasteriser.

(** X8: what lies outside the centre square has no influence.  Two sources
    of the same mode and size that agree inside the crop box give the same
    result, exception or image, whatever their margins hold. *)
Theorem render_ignores_margins (im1 im2 : t) sz :
  mode im1 = mode im2 -> size im1 = size im2 ->
  (forall l t r b, crop_box (width im1) (height im1) = (l, t, r, b) ->
     forall x y, l <= x < r -> t <= y < b ->
       getpixel im1 x y = getpixel im2 x y) ->
  render LANCZOS covers im1 sz = render LANCZOS covers im2 sz.
Proof.
  intros Hm Hs Hin.
  assert (crop im1 (crop_box (width im1) (height im1)) =
          crop im2 (crop_box (width im1) (height im1))) as Hcrop.
  { destruct (crop_box (width im1) (height im1)) as [[[l t'] r] b] eqn:Hbox.
    unfold crop. rewrite <- Hm.
    destruct (r <? l); [done|]. destruct (b <? t'); [done|].
    do 2 f_equal. apply raster_ext. intros x y Hx Hy.
    by rewrite (Hin l t' r b eq_refl (x + l) (y + t')) by lia. }
  unfold render. unfold width, height in Hcrop. rewrite <- Hs.
  destruct (size im1) as [W H]. cbn [fst snd] in Hcrop. by rewrite Hcrop.
Qed.

(** X7: the alpha of the result is the mask and nothing else.  At every
    position where the resized image holds a four-band pixel, the output
    pixel has four bands and its alpha is 255 if the rasteriser covers the
    position and 0 if not; the alpha the source had there is discarded. *)
Theorem alpha_comes_from_mask_alone (im : t) sz out :
  render LANCZOS covers im sz = Returned out ->
  exists cropped resized,
    crop im (crop_box (width im) (height im)) = Returned cropped /\
    resize cropped sz LANCZOS = Returned resized /\
    forall x y p, 0 <= x < fst sz -> 0 <= y < snd sz ->
      getpixel resized x y = Some p -> length p = 4%nat ->
      exists q,
        getpixel out x y = Some q /\ length q = 4%nat /\
        rgb q = rgb p /\
        alpha q = Some (if covers (0, 0, fst sz, snd sz) x y then 255 else 0).
Proof.
  intros Hr.
  destruct (render_inv _ _ _ _ _ Hr)
    as (cropped & resized & mask0 & canvas & pasted & Hc & Hz & Hm & Hn & Hp & Ha).
  exists cropped, resized. repeat (split; [done|]).
  destruct (render_pixels _ _ _ _ _ _ _ _ _ _ Hc Hz Hm Hn Hp Ha)
    as (_ & _ & _ & Hpx).
  intros x y p Hx Hy Hpix Hlen.
  destruct (Hpx x y Hx Hy) as (p' & Hp' & _ & Hq).
  rewrite Hpix in Hp'. injection Hp' as <-.
  eexists. split; [exact Hq|].
  split; [by rewrite length_insert|].
  split; [unfold rgb; by rewrite take_insert_ge|].
  unfold alpha. apply list_lookup_insert_eq. lia.
Qed.

End RenderMore.

(** ** More on the transform and the driver on the file system *)

Section DriverMore.
Variable decode : list Byte.byte -> source.
Variable LANCZOS : Image.filter.
Variable covers : ImageDraw.rasteriser.
Variable encode_png : Image.t -> list Byte.byte.

Local Abbreviation transform :=
  (create_rounded_portrait decode LANCZOS covers encode_png).
Local Abbreviation step := (process decode LANCZOS covers encode_png).
Local Abbreviation loop := (fun ps => for_each ps step).
Local Abbreviation script := (main decode LANCZOS covers encode_png).

(** A returning call, taken apart. *)
Lemma transform_returned i o sz w w1 :
  transform i o sz w = (Returned tt, w1) ->
  exists content img rgba out,
    files w !! i = Some (File content) /\
    decode content = Decodable img /\
    Image.convert img Image.RGBA = Returned rgba /\
    render LANCZOS covers rgba sz = Returned out /\
    files w !! o <> Some Dir /\
    w1 = mk_world (<[o := File (encode_png out)]> (files w))
                  (stdout w ++ ["Created " +:+ o]).
Proof.
  rewrite transform_eq. unfold portrait_of.
  destruct (files w !! i) as [[content|]|]; [|discriminate..].
  destruct (decode content) as [| |img] eqn:Ed; [discriminate..|].
  unfold load. rewrite bind_ret.
  destruct (Image.convert img Image.RGBA) as [rgba|e] eqn:Ec;
    rewrite ?bind_ret, ?bind_raise; [|discriminate].
  destruct (render LANCZOS covers rgba sz) as [out|e] eqn:Er;
    rewrite ?bind_ret, ?bind_raise; [|discriminate].
  unfold mret, outcome_ret.
  destruct (files w !! o) as [[?|]|] eqn:Eo; intros [= <-];
    exists content, img, rgba, out; by repeat split.
Qed.

(** A raising call, taken apart: where the exception came from. *)
Lemma transform_raised i o sz w e w1 :
  transform i o sz w = (Raised e, w1) ->
  w1 = w /\
  ((files w !! i = None /\ e = FileNotFoundError i) \/
   (is_Some (files w !! i) /\ forall p, e <> FileNotFoundError p)).
Proof.
  rewrite transform_eq. unfold portrait_of.
  destruct (files w !! i) as [[content|]|] eqn:Ei.
  - destruct (decode content) as [| |img] eqn:Ed.
    + intros [= <- <-]. split; [done|]. right. by split.
    + intros [= <- <-]. split; [done|]. right. by split.
    + unfold load. rewrite bind_ret.
      destruct (convert_rgba img) as (rgba & Ec & Hm & _).
      rewrite Ec, bind_ret.
      destruct (render LANCZOS covers rgba sz) as [out|e'] eqn:Er;
        rewrite ?bind_ret, ?bind_raise.
      * unfold mret, outcome_ret.
        destruct (files w !! o) as [[?|]|]; intros [= <- <-];
          (split; [done|]); right; by split.
      * intros [= <- <-]. split; [done|]. right. split; [done|].
        by rewrite (render_raises_only_ValueError _ _ _ _ _ Hm Er).
  - intros [= <- <-]. split; [done|]. right. by split.
  - intros [= <- <-]. split; [done|]. by left.
Qed.

(** X1: a call that returns has decoded the input file, written the encoded
    portrait under the output path, left every other file of the working
    directory as it was, and printed exactly the line
    "Created <output_path>". *)
Theorem transform_writes_only_output i o sz w w1 :
  create_rounded_portrait decode LANCZOS covers encode_png i o sz w =
    (Returned tt, w1) ->
  (exists content img rgba out,
     files w !! i = Some (File content) /\
     decode content = Decodable img /\
     Image.convert img Image.RGBA = Returned rgba /\
     render LANCZOS covers rgba sz = Returned out /\
     files w1 !! o = Some (File (encode_png out))) /\
  (plain_name o = true ->
   forall p, plain_name p = true -> p <> o ->
     files w1 !! p = files w !! p) /\
  stdout w1 = stdout w ++ ["Created " +:+ o].
Proof.
  intros Ht.
  destruct (transform_returned _ _ _ _ _ Ht)
    as (content & img & rgba & out & Hi & Hd & Hc & Hr & _ & ->).
  simpl. split; [|split; [|done]].
  - exists content, img, rgba, out. by rewrite lookup_insert_eq.
  - intros _ p _ Hp. by rewrite lookup_insert_ne.
Qed.

(** X2: a call that raises has changed nothing: no file is written and no
    line is printed, since saving and printing come last. *)
Theorem transform_failure_changes_nothing i o sz w e w1 :
  create_rounded_portrait decode LANCZOS covers encode_png i o sz w =
    (Raised e, w1) ->
  w1 = w.
Proof. intros Ht. by destruct (transform_raised _ _ _ _ _ _ Ht). Qed.

(** X3: what the transform does with a bad input, for input and output that
    are file names of the working directory.  A missing input raises
    FileNotFoundError, a directory IsADirectoryError, a file whose format is
    not recognised UnidentifiedImageError, each naming the input; a file
    that is recognised but whose pixel data breaks off raises OSError; in
    all four cases nothing is written or printed; and FileNotFoundError is
    raised in no other situation. *)
Theorem transform_input_errors i o sz w :
  plain_name i = true -> plain_name o = true ->
  (files w !! i = None ->
   create_rounded_portrait decode LANCZOS covers encode_png i o sz w =
     (Raised (FileNotFoundError i), w)) /\
  (files w !! i = Some Dir ->
   create_rounded_portrait decode LANCZOS covers encode_png i o sz w =
     (Raised (IsADirectoryError i), w)) /\
  (forall content,
     files w !! i = Some (File content) -> decode content = Unidentified ->
     create_rounded_portrait decode LANCZOS covers encode_png i o sz w =
       (Raised (UnidentifiedImageError i), w)) /\
  (forall content,
     files w !! i = Some (File content) -> decode content = Truncated ->
     create_rounded_portrait decode LANCZOS covers encode_png i o sz w =
       (Raised OSError, w)) /\
  (forall p w1,
     create_rounded_portrait decode LANCZOS covers encode_png i o sz w =
       (Raised (FileNotFoundError p), w1) ->
     p = i /\ files w !! i = None).
Proof.
  intros _ _. split; [|split; [|split; [|split]]].
  - intros Hi. rewrite transform_eq, Hi. reflexivity.
  - intros Hi. rewrite transform_eq, Hi. reflexivity.
  - intros content Hi Hd. rewrite transform_eq, Hi. unfold portrait_of.
    by rewrite Hd.
  - intros content Hi Hd. rewrite transform_eq, Hi. unfold portrait_of.
    by rewrite Hd.
  - intros p w1 Ht.
    destruct (transform_raised _ _ _ _ _ _ Ht) as (_ & [[Hi He]|[_ Hne]]).
    + by injection He as ->.
    + by destruct (Hne p).
Qed.

(** Where a raising run of the loop stopped. *)
Lemma loop_raised ps w e w1 :
  loop ps w = (Raised e, w1) ->
  exists pre i o rest,
    ps = pre ++ (i, o) :: rest /\
    loop pre w = (Returned tt, w1) /\
    step (i, o) w1 = (Raised e, w1).
Proof.
  revert w. induction ps as [|[i o] ps IH]; intros w Hl; [discriminate|].
  rewrite loop_cons in Hl.
  destruct (step (i, o) w) as [[[]|e'] wa] eqn:Es.
  - destruct (IH _ Hl) as (pre & i' & o' & rest & -> & Hpre & Hstep).
    exists ((i, o) :: pre), i', o', rest. split; [done|].
    split; [|done]. by rewrite loop_cons, Es.
  - injection Hl as <- <-.
    destruct (step_cases decode LANCZOS covers encode_png i o w)
      as [(_ & E)|[(b & _ & _ & _ & E)|(e'' & _ & E & _)]];
      rewrite E in Es; try discriminate.
    injection Es as <- <-.
    by exists [], i, o, ps.
Qed.

Lemma step_raised i o w e w1 :
  step (i, o) w = (Raised e, w1) ->
  is_Some (files w !! i) /\ transform i o size_default w = (Raised e, w1).
Proof.
  rewrite step_eq. destruct (files w !! i) eqn:Ei; [|discriminate].
  intros Ht. by split.
Qed.

Lemma step_keeps_files i o w r w1 :
  step (i, o) w = (r, w1) ->
  forall p, is_Some (files w !! p) -> is_Some (files w1 !! p).
Proof.
  intros Hs p Hp.
  destruct (step_cases decode LANCZOS covers encode_png i o w)
    as [(_ & E)|[(b & _ & _ & _ & E)|(e & _ & E & _)]];
    rewrite E in Hs; injection Hs as <- <-; simpl; [done| |done].
  apply lookup_insert_is_Some. destruct (decide (o = p)); auto.
Qed.

Lemma loop_keeps_files ps w r w1 :
  loop ps w = (r, w1) ->
  forall p, is_Some (files w !! p) -> is_Some (files w1 !! p).
Proof.
  revert w. induction ps as [|[i o] ps IH]; intros w Hl p Hp.
  - by injection Hl as <- <-.
  - rewrite loop_cons in Hl.
    destruct (step (i, o) w) as [[[]|e] wa] eqn:Es.
    + eapply IH; [exact Hl|]. by eapply step_keeps_files.
    + injection Hl as <- <-. by eapply step_keeps_files.
Qed.

Lemma script_files w r w1 :
  script w = (r, w1) ->
  exists wl, loop philosophers w = (r, wl) /\ files w1 = files wl.
Proof.
  rewrite script_eq.
  destruct (for_each philosophers step w) as [[[]|e] wl];
    intros [= <- <-]; by exists wl.
Qed.

(** X4: the driver never raises FileNotFoundError: the existence check of
    line 57 keeps [Image.open] away from every missing input. *)
Theorem driver_never_file_not_found w r w1 :
  main decode LANCZOS covers encode_png w = (r, w1) ->
  forall p, r <> Raised (FileNotFoundError p).
Proof.
  intros Hm p ->.
  destruct (script_files _ _ _ Hm) as (wl & Hl & _).
  destruct (loop_raised _ _ _ _ Hl) as (pre & i & o & rest & _ & _ & Hs).
  destruct (step_raised _ _ _ _ _ Hs) as [[entry Hi] Ht].
  destruct (transform_raised _ _ _ _ _ _ Ht) as (_ & [[Hnone _]|[_ Hne]]).
  - congruence.
  - by destruct (Hne p).
Qed.

(** X5: an exception ends the run on the spot.  If the driver raises, the
    pairs before some pair (i, o) were all processed, the input i exists,
    the exception is the one the transform raised for (i, o), and the world
    is exactly as the earlier pairs left it: one console line for each of
    them, nothing for the failing pair or the later ones, no closing lines,
    and the outputs already written still in place. *)
Theorem driver_stops_at_first_failure w e w1 :
  main decode LANCZOS covers encode_png w = (Raised e, w1) ->
  exists pre i o rest,
    philosophers = pre ++ (i, o) :: rest /\
    for_each pre (process decode LANCZOS covers encode_png) w =
      (Returned tt, w1) /\
    is_Some (files w !! i) /\
    create_rounded_portrait decode LANCZOS covers encode_png
      i o size_default w1 = (Raised e, w1) /\
    stdout w1 = stdout w ++ map (report (files w)) pre.
Proof.
  rewrite script_eq.
  destruct (for_each philosophers step w) as [[[]|e'] wl] eqn:Hl;
    [discriminate|]. intros [= <- <-].
  destruct (loop_raised _ _ _ _ Hl) as (pre & i & o & rest & Hps & Hpre & Hs).
  destruct (step_raised _ _ _ _ _ Hs) as [Hi Ht].
  exists pre, i, o, rest. repeat (split; [done|]).
  pose proof philosophers_inputs_fresh as Hfresh.
  pose proof philosophers_outputs_distinct as Hnd.
  rewrite Hps in Hfresh, Hnd. rewrite fmap_app in Hfresh, Hnd.
  apply Forall_app in Hfresh as [Hfpre Hfrest].
  apply Forall_cons in Hfrest as [Hfi _]. simpl in Hfi.
  apply NoDup_app in Hnd as (Hndpre & _ & _).
  assert (Forall (fun p : string * string => p.1 ∉ pre.*2) pre) as Hfpre'.
  { eapply Forall_impl; [exact Hfpre|]. simpl. intros p Hp Hin.
    apply Hp, elem_of_app. by left. }
  split.
  - rewrite <- (loop_frame decode LANCZOS covers encode_png _ _ _ _ Hpre i);
      [done|].
    intros Hin. apply Hfi, elem_of_app. by left.
  - by destruct (loop_returns decode LANCZOS covers encode_png
                   pre Hfpre' Hndpre _ _ Hpre) as [Hout _].
Qed.

(** X6: whatever happens, returning or raising, the driver touches nothing
    but the five output names: every other path, the five inputs among
    them, holds what it held before, and no path that existed is gone
    afterwards. *)
Theorem driver_touches_only_outputs w r w1 :
  main decode LANCZOS covers encode_png w = (r, w1) ->
  (forall p,
     p ∉ ["socrates-rounded.png"; "plato-rounded.png";
          "aristotle-rounded.png"; "nietzsche-rounded.png";
          "descartes-rounded.png"] ->
     files w1 !! p = files w !! p) /\
  (forall i o, (i, o) ∈ philosophers -> files w1 !! i = files w !! i) /\
  (forall p, is_Some (files w !! p) -> is_Some (files w1 !! p)).
Proof.
  intros Hm. destruct (script_files _ _ _ Hm) as (wl & Hl & ->).
  split; [|split].
  - intros p Hp. by apply (loop_frame _ _ _ _ _ _ _ _ Hl).
  - intros i o Hel. apply (loop_frame _ _ _ _ _ _ _ _ Hl).
    pose proof philosophers_inputs_fresh as Hfresh.
    rewrite Forall_forall in Hfresh. exact (Hfresh _ Hel).
  - intros p Hp. by eapply loop_keeps_files.
Qed.

End DriverMore.

(** ** These properties at work on the small back end *)

Section MoreExamples.
Import Image.

Local Abbreviation demo_transform :=
  (create_rounded_portrait Demo.decode Demo.nearest Demo.covers Demo.encode).
Local Abbreviation demo_script :=
  (main Demo.decode Demo.nearest Demo.covers Demo.encode).
Local Abbreviation socrates_run :=
  (demo_transform "socrates.jpg" "socrates-rounded.png" size_default
     Demo.only_socrates).

Lemma transform_writes_only_output_witness :
  stdout socrates_run.2 = ["Created socrates-rounded.png"] /\
  files socrates_run.2 !! "socrates.jpg" = Some (File Demo.picture).
Proof.
  destruct (transform_writes_only_output Demo.decode Demo.nearest Demo.covers
              Demo.encode _ _ _ _ _ demo_transform_returns)
    as (_ & Hframe & Hout).
  split.
  - rewrite Hout. reflexivity.
  - rewrite (Hframe eq_refl "socrates.jpg" eq_refl) by discriminate.
    vm_compute. reflexivity.
Defined.

Lemma transform_failure_changes_nothing_witness :
  (demo_transform "plato.jpg" "plato-rounded.png" size_default
     Demo.plato_is_dir).2 = Demo.plato_is_dir.
Proof.
  apply (transform_failure_changes_nothing Demo.decode Demo.nearest
           Demo.covers Demo.encode "plato.jpg" "plato-rounded.png"
           size_default Demo.plato_is_dir (IsADirectoryError "plato.jpg")).
  vm_compute. reflexivity.
Defined.

Lemma transform_input_errors_witness :
  demo_transform "socrates.jpg" "socrates-rounded.png" size_default
    Demo.plato_is_dir =
    (Raised (FileNotFoundError "socrates.jpg"), Demo.plato_is_dir) /\
  demo_transform "plato.jpg" "plato-rounded.png" size_default
    Demo.plato_is_dir =
    (Raised (IsADirectoryError "plato.jpg"), Demo.plato_is_dir).
Proof.
  split.
  - apply (transform_input_errors Demo.decode Demo.nearest Demo.covers
             Demo.encode "socrates.jpg" "socrates-rounded.png" size_default
             Demo.plato_is_dir eq_refl eq_refl).
    vm_compute. reflexivity.
  - apply (transform_input_errors Demo.decode Demo.nearest Demo.covers
             Demo.encode "plato.jpg" "plato-rounded.png" size_default
             Demo.plato_is_dir eq_refl eq_refl).
    vm_compute. reflexivity.
Defined.

Lemma demo_dir_run :
  demo_script Demo.plato_is_dir =
    (Raised (IsADirectoryError "plato.jpg"),
     mk_world {[ "plato.jpg"%string := Dir ]}
              ["Warning: socrates.jpg not found"]).
Proof. vm_compute. reflexivity. Defined.

Lemma driver_never_file_not_found_witness :
  (demo_script Demo.plato_is_dir).1 <> Raised (FileNotFoundError "socrates.jpg").
Proof.
  rewrite demo_dir_run.
  exact (driver_never_file_not_found Demo.decode Demo.nearest Demo.covers
           Demo.encode _ _ _ demo_dir_run "socrates.jpg").
Defined.

Lemma driver_stops_at_first_failure_witness :
  exists pre i o rest,
    philosophers = pre ++ (i, o) :: rest /\
    is_Some (files Demo.plato_is_dir !! i) /\
    ["Warning: socrates.jpg not found"] =
      stdout Demo.plato_is_dir ++ map (report (files Demo.plato_is_dir)) pre.
Proof.
  destruct (driver_stops_at_first_failure Demo.decode Demo.nearest Demo.covers
              Demo.encode _ _ _ demo_dir_run)
    as (pre & i & o & rest & Hps & _ & Hi & _ & Hout).
  by exists pre, i, o, rest.
Defined.

Lemma driver_touches_only_outputs_witness :
  files (demo_script Demo.only_socrates).2 !! "socrates.jpg" =
    Some (File Demo.picture) /\
  files (demo_script Demo.only_socrates).2 !! "notes.txt" = None.
Proof.
  destruct (driver_touches_only_outputs Demo.decode Demo.nearest Demo.covers
              Demo.encode _ _ _ demo_run_returns) as (Hframe & Hinputs & _).
  split.
  - rewrite (Hinputs "socrates.jpg" "socrates-rounded.png")
      by apply list_elem_of_here.
    vm_compute. reflexivity.
  - rewrite Hframe; [vm_compute; reflexivity|].
    rewrite !not_elem_of_cons. repeat split;
      first [discriminate | apply not_elem_of_nil].
Defined.

Lemma crop_twice_witness :
  exists cropped,
    crop Demo.image (crop_box 4 2) = Returned cropped /\
    size cropped = (2, 2) /\
    crop cropped (crop_box 2 2) = Returned cropped.
Proof.
  destruct (crop Demo.image (crop_box (width Demo.image) (height Demo.image)))
    as [cropped|e] eqn:Hc; [|vm_compute in Hc; discriminate].
  destruct (crop_twice Demo.image cropped Hc) as (HW & HH & _ & Hagain).
  exists cropped. split; [exact Hc|].
  vm_compute in Hc. injection Hc as <-.
  split; [reflexivity|]. exact Hagain.
Defined.

Lemma render_ignores_margins_witness :
  render Demo.nearest Demo.covers Demo.image (6, 6) =
  render Demo.nearest Demo.covers Demo.image_other_margins (6, 6).
Proof.
  apply render_ignores_margins; [reflexivity|reflexivity|].
  intros l t' r b Hbox x y Hx Hy.
  vm_compute in Hbox. injection Hbox as <- <- <- <-.
  assert (x = 1 \/ x = 2) as [-> | ->] by lia;
    (assert (y = 0 \/ y = 1) as [-> | ->] by lia); reflexivity.
Defined.

Lemma alpha_comes_from_mask_alone_witness :
  exists out q,
    render Demo.nearest Demo.covers Demo.image (6, 6) = Returned out /\
    getpixel out 0 0 = Some q /\ alpha q = Some 0 /\
    exists q', getpixel out 1 0 = Some q' /\ alpha q' = Some 255.
Proof.
  destruct (render Demo.nearest Demo.covers Demo.image (6, 6)) as [out|e] eqn:Er;
    [|vm_compute in Er; discriminate].
  destruct (alpha_comes_from_mask_alone Demo.nearest Demo.covers
              Demo.image (6, 6) out Er) as (cropped & resized & Hc & Hz & Hpx).
  vm_compute in Hc. injection Hc as <-.
  vm_compute in Hz. injection Hz as <-.
  destruct (Hpx 0 0 [20; 20; 20; 255]) as (q & Hq & _ & _ & Ha);
    [simpl; lia|simpl; lia|reflexivity|reflexivity|].
  destruct (Hpx 1 0 [20; 20; 20; 255]) as (q' & Hq' & _ & _ & Ha');
    [simpl; lia|simpl; lia|reflexivity|reflexivity|].
  exists out, q. split; [reflexivity|]. split; [exact Hq|].
  split; [exact Ha|]. exists q'. split; [exact Hq'|exact Ha'].
Defined.

End MoreExamples.
